(** * ImageAnnotator: the selection/edit controller of annotorious

    A shallow embedding of [src/ImageAnnotator.jsx].  The React component is
    a state record, every method is a computation in a small state-and-error
    monad over a world made of the component state, the object store and the
    log of what the component did to its collaborators (calls into the
    annotation layer, calls of the consumer's [props] handlers, promise
    resolutions). *)

From Stdlib Require Import ZArith.
From stdpp Require Import base list strings.

Set Default Proof Using "Type".

(** ** Data model *)

(** Annotation objects, target objects and DOM elements are JavaScript
    objects: the component only ever holds references to them. *)
Definition aref := nat.
Definition tref := nat.
Definition Element := nat.

Record Target := mkTarget {
  source : string;
  selector : string
}.

Inductive Id :=
| Given (s : string)
| Generated (n : nat).

(** The annotation class comes from the client-core library.  The component
    reads [id], [isSelection] and [readOnly] and passes the rest along. *)
Record AnnotationData := mkAnnotation {
  id : Id;
  target : Target;
  body : list string;
  isSelection : bool;
  readOnly : bool
}.

(** [this.state] *)
Record State := mkState {
  selectedAnnotation : option aref;
  selectedDOMElement : option Element;
  modifiedTarget : option tref;
  editorDisabled : bool;
  beforeHeadlessModify : option aref
}.

(** The initial [state] of the class body, from [props.config.disableEditor]. *)
Definition initialState (disableEditor : bool) : State :=
  {| selectedAnnotation := None;
     selectedDOMElement := None;
     modifiedTarget := None;
     editorDisabled := disableEditor;
     beforeHeadlessModify := None |}.

(** The two handlers [onCreateOrUpdateAnnotation] is instantiated with. *)
Inductive Method :=
| onAnnotationCreated
| onAnnotationUpdated.

(** What [this.props[method]] receives as its second argument: the closure
    [this.overrideAnnotationId(a)], or the object [previous.clone()]. *)
Inductive SecondArgument :=
| IdOverrideCallback (a : aref)
| PreviousClone (p : aref).

(** What [removeAnnotation] of the annotation layer accepts. *)
Inductive AnnotationOrId :=
| AnAnnotation (a : aref)
| AnId (i : Id).

(** The [select] event of the annotation layer. *)
Record SelectEvent := mkSelectEvent {
  annotation : option aref;
  element : option Element;
  skipEvent : bool
}.

(** Everything observable from outside the component, in the order it
    happens. *)
Inductive Effect :=
(* React *)
| SetState (s : State)
(* this.annotationLayer *)
| LayerDeselect
| LayerAddOrUpdateAnnotation (a : aref) (previous : option aref)
| LayerRemoveAnnotation (annotationOrId : AnnotationOrId)
| LayerOverrideId (i forcedId : Id)
| LayerInit (l : list aref)
| LayerSelectAnnotation
| LayerGetAnnotations
| LayerGetSelected
(* this.props *)
| OnSelectionCreated (a : aref)
| OnAnnotationSelected (a : aref)
| OnCancelSelected (a : aref)
| OnSelectionTargetChanged (t : tref)
| PropsMethod (method : Method) (a : aref) (second : SecondArgument)
| OnAnnotationDeleted (a : aref)
| OnMouseEnterAnnotation (a : aref)
| OnMouseLeaveAnnotation (a : aref)
(* document *)
| AddKeyupListener
| RemoveKeyupListener
(* the promise handed to the caller of the external API *)
| PromiseResolved.

Record World := mkWorld {
  state : State;
  annotations : list AnnotationData;
  targets : list Target;
  uuid : nat;
  trace : list Effect
}.

(** ** The monad *)

(** [None] is a read through a reference that was never allocated, which no
    JavaScript program can hold. *)
Definition M (A : Type) : Type := World -> option (A * World).

Definition ret {A} (x : A) : M A := fun w => Some (x, w).

Definition bind {A B} (m : M A) (k : A -> M B) : M B :=
  fun w => match m w with
           | Some (x, w') => k x w'
           | None => None
           end.

Declare Scope controller_scope.
Delimit Scope controller_scope with ctl.
Notation "x <- m ;; k" := (bind m (fun x => k))
  (at level 100, m at next level, right associativity) : controller_scope.
Notation "m ;; k" := (bind m (fun _ => k))
  (at level 100, right associativity) : controller_scope.
Open Scope controller_scope.

Definition getState : M State := fun w => Some (state w, w).

Definition log (e : Effect) : M unit :=
  fun w => Some (tt, {| state := state w;
                        annotations := annotations w;
                        targets := targets w;
                        uuid := uuid w;
                        trace := trace w ++ [e] |}).

Definition readAnnotation (a : aref) : M AnnotationData :=
  fun w => match annotations w !! a with
           | Some d => Some (d, w)
           | None => None
           end.

Definition readTarget (t : tref) : M Target :=
  fun w => match targets w !! t with
           | Some d => Some (d, w)
           | None => None
           end.

Definition newAnnotation (d : AnnotationData) : M aref :=
  fun w => Some (length (annotations w),
                 {| state := state w;
                    annotations := annotations w ++ [d];
                    targets := targets w;
                    uuid := uuid w;
                    trace := trace w |}).

Definition newTarget (d : Target) : M tref :=
  fun w => Some (length (targets w),
                 {| state := state w;
                    annotations := annotations w;
                    targets := targets w ++ [d];
                    uuid := uuid w;
                    trace := trace w |}).

Definition freshId : M Id :=
  fun w => Some (Generated (uuid w),
                 {| state := state w;
                    annotations := annotations w;
                    targets := targets w;
                    uuid := S (uuid w);
                    trace := trace w |}).

(** [this.setState(partial, callback)]: the partial state is merged, then the
    callback runs.  Every entry point of the component is an emitter
    callback, a DOM listener, an API call or a handler whose reads of
    [this.state] all come before its first [setState], so the update is
    modelled as applied at once.  A sequence of two entry points therefore
    stands for the second one called when the state update of the first has
    been applied (a later event, a call made when a promise has resolved),
    not for two calls made in a row before [this.state] has changed. *)
Definition setState (partial : State -> State) (callback : M unit) : M unit :=
  fun w => let s := partial (state w) in
           callback {| state := s;
                       annotations := annotations w;
                       targets := targets w;
                       uuid := uuid w;
                       trace := trace w ++ [SetState s] |}.

(** An omitted callback. *)
Definition undefined : M unit := ret tt.

Fixpoint mapM {A B} (f : A -> M B) (l : list A) : M (list B) :=
  match l with
  | [] => ret []
  | x :: l' => y <- f x ;; ys <- mapM f l' ;; ret (y :: ys)
  end.

(** ** The annotation class *)

(** Modelled from the spec: [clone] is a method of the annotation class of
    the client-core library, which is not part of this repository.  "mutated
    only by cloning with modified fields (copy-on-write)", "deep-cloned
    Annotation values (never shared mutable references)": a new object with
    the same contents, the given target overriding the original one. *)
Definition clone (a : aref) (opt_target : option tref) : M aref :=
  d <- readAnnotation a ;;
  match opt_target with
  | Some t =>
      tv <- readTarget t ;;
      newAnnotation {| id := id d; target := tv; body := body d;
                       isSelection := isSelection d; readOnly := readOnly d |}
  | None => newAnnotation d
  end.

(** Modelled from the spec: [toAnnotation] is a method of the selection
    class of the client-core library.  "a draft becomes committed only via an
    explicit promote to annotation conversion", "a committed annotation
    always has isSelection = false", and the promoted annotation carries a
    "generated identifier". *)
Definition toAnnotation (a : aref) : M aref :=
  d <- readAnnotation a ;;
  i <- freshId ;;
  newAnnotation {| id := i; target := target d; body := body d;
                   isSelection := false; readOnly := readOnly d |}.

(** [JSON.parse(JSON.stringify(modifiedTarget))] *)
Definition jsonClone (t : tref) : M tref :=
  d <- readTarget t ;; newTarget d.

(** ** The component *)

Section ImageAnnotator.

(** [isEqual] is a method of the annotation class of the client-core
    library; the component only tests its result, on the contents of the two
    objects. *)
Variable isEqual : AnnotationData -> AnnotationData -> bool.

(** Shorthand *)
Definition clearState (opt_callback : M unit) : M unit :=
  setState (fun s => {| selectedAnnotation := None;
                        selectedDOMElement := None;
                        modifiedTarget := None;
                        editorDisabled := editorDisabled s;
                        beforeHeadlessModify := None |})
           opt_callback.

(** Handle Escape key in headless mode *)
Definition headlessCancel (which : Z) : M unit :=
  if (which =? 27)%Z then
    clearState undefined ;;
    log LayerDeselect
  else ret tt.

(** Selection when editorDisabled == false *)
Definition onNormalSelect (evt : SelectEvent) : M unit :=
  match annotation evt with
  | Some annotation =>
      let select :=
        setState (fun s => {| selectedAnnotation := Some annotation;
                              selectedDOMElement := element evt;
                              modifiedTarget := None;
                              editorDisabled := editorDisabled s;
                              beforeHeadlessModify := None |})
          (if negb (skipEvent evt) then
             d <- readAnnotation annotation ;;
             if isSelection d then
               c <- clone annotation None ;; log (OnSelectionCreated c)
             else
               c <- clone annotation None ;; log (OnAnnotationSelected c)
           else ret tt) in
      s <- getState ;;
      match selectedAnnotation s with
      | Some selected =>
          ds <- readAnnotation selected ;;
          da <- readAnnotation annotation ;;
          if negb (isEqual ds da) then
            clearState (log (OnCancelSelected selected) ;; select)
          else select
      | None => select
      end
  | None =>
      s <- getState ;;
      match selectedAnnotation s with
      | Some selected => clearState (log (OnCancelSelected selected))
      | None => clearState undefined
      end
  end.

Definition handleUpdateTarget (selectedDOMElement : option Element)
    (modifiedTarget : tref) : M unit :=
  setState (fun s => {| selectedAnnotation := selectedAnnotation s;
                        selectedDOMElement := selectedDOMElement;
                        modifiedTarget := Some modifiedTarget;
                        editorDisabled := editorDisabled s;
                        beforeHeadlessModify := beforeHeadlessModify s |})
           undefined ;;
  c <- jsonClone modifiedTarget ;;
  log (OnSelectionTargetChanged c).

Definition handleMouseEnter (annotation : aref) : M unit :=
  c <- clone annotation None ;; log (OnMouseEnterAnnotation c).

Definition handleMouseLeave (annotation : aref) : M unit :=
  c <- clone annotation None ;; log (OnMouseLeaveAnnotation c).

(** A convenience method that allows the external application to override
    the autogenerated Id for an annotation. *)
Definition overrideAnnotationId (originalAnnotation : aref) (forcedId : Id)
    : M unit :=
  d <- readAnnotation originalAnnotation ;;
  s <- getState ;;
  match selectedAnnotation s with
  | Some _ => clearState (log (LayerOverrideId (id d) forcedId))
  | None => log (LayerOverrideId (id d) forcedId)
  end.

(** Common handler for annotation CREATE or UPDATE *)
Definition onCreateOrUpdateAnnotation (method : Method)
    (opt_callback : M unit) (annotation : aref) (previous : option aref)
    : M unit :=
  d <- readAnnotation annotation ;;
  a <- (if isSelection d then toAnnotation annotation else ret annotation) ;;
  s <- getState ;;
  a <- (match modifiedTarget s with
        | Some t => clone a (Some t)
        | None => clone a None
        end) ;;
  clearState (
    log LayerDeselect ;;
    log (LayerAddOrUpdateAnnotation a previous) ;;
    match previous with
    | Some p =>
        c <- clone p None ;; log (PropsMethod method a (PreviousClone c))
    | None =>
        log (PropsMethod method a (IdOverrideCallback a))
    end ;;
    opt_callback).

Definition onDeleteAnnotation (annotation : aref) : M unit :=
  clearState undefined ;;
  log (LayerRemoveAnnotation (AnAnnotation annotation)) ;;
  log (OnAnnotationDeleted annotation).

(** Cancel button on annotation editor *)
Definition onCancelAnnotation (annotation : aref) (opt_callback : M unit)
    : M unit :=
  s <- getState ;;
  (if negb (editorDisabled s) then log LayerDeselect else ret tt) ;;
  log (OnCancelSelected annotation) ;;
  clearState opt_callback.

(** *** External API

    [saveSelected] and [updateSelected] return [new Promise(resolve => ...)]:
    the executor runs at once, and [resolve] is what the body calls, in tail
    position, when it is done.  The model takes [resolve] as an argument:
    [.then(k)] is the body run with [k], and a body that never calls it
    leaves the promise pending. *)

Definition addAnnotation (annotation : aref) : M unit :=
  c <- clone annotation None ;; log (LayerAddOrUpdateAnnotation c None).

Definition cancelSelected : M unit :=
  s <- getState ;;
  match selectedAnnotation s with
  | Some selected => onCancelAnnotation selected undefined
  | None => ret tt
  end.

Definition get_disableEditor : M bool :=
  s <- getState ;; ret (editorDisabled s).

Definition set_disableEditor (disabled : bool) : M unit :=
  setState (fun s => {| selectedAnnotation := selectedAnnotation s;
                        selectedDOMElement := selectedDOMElement s;
                        modifiedTarget := modifiedTarget s;
                        editorDisabled := disabled;
                        beforeHeadlessModify := beforeHeadlessModify s |})
    (s <- getState ;;
     if disabled && negb (editorDisabled s) then log AddKeyupListener
     else if negb disabled && editorDisabled s then log RemoveKeyupListener
     else ret tt).

(** [layerAnnotations] is what [this.annotationLayer.getAnnotations()]
    answers. *)
Definition getAnnotations (layerAnnotations : list aref) : M (list aref) :=
  log LayerGetAnnotations ;;
  mapM (fun a => clone a None) layerAnnotations.

(** [selected] is the [annotation] of what
    [this.annotationLayer.getSelected()] answers. *)
Definition getSelected (selected : option aref) : M (option aref) :=
  log LayerGetSelected ;;
  match selected with
  | Some a => c <- clone a None ;; ret (Some c)
  | None => ret None
  end.

Definition removeAnnotation (annotationOrId : AnnotationOrId) : M unit :=
  log (LayerRemoveAnnotation annotationOrId).

(** This is a sync operation, so that the external API can safely call
    things in sequence. *)
Definition saveSelected (resolve : M unit) : M unit :=
  s <- getState ;;
  match selectedAnnotation s with
  | Some a =>
      d <- readAnnotation a ;;
      if isSelection d then
        a' <- toAnnotation a ;;
        onCreateOrUpdateAnnotation onAnnotationCreated resolve a' (Some a)
      else
        (* Headless update? *)
        match beforeHeadlessModify s with
        | Some before =>
            (* Annotation was modified using '.updateSelected()' *)
            onCreateOrUpdateAnnotation onAnnotationUpdated resolve a
              (Some before)
        | None =>
            match modifiedTarget s with
            | Some _ =>
                (* Target was modified, but otherwise no change *)
                onCreateOrUpdateAnnotation onAnnotationUpdated resolve a
                  (Some a)
            | None => onCancelAnnotation a resolve
            end
        end
  | None => resolve
  end.

(** [found] is what [this.annotationLayer.selectAnnotation(arg)] answers.
    The method does not set the selection itself: a select event the
    annotation layer emits for the annotation it found reaches the component
    through [handleSelect], as an action of its own. *)
Definition selectAnnotation (found : option aref) : M (option aref) :=
  log LayerSelectAnnotation ;;
  match found with
  | Some a => c <- clone a None ;; ret (Some c)
  | None => clearState undefined ;; ret None (* Deselect *)
  end.

Definition setAnnotations (annotations : list aref) : M unit :=
  cs <- mapM (fun a => clone a None) annotations ;; log (LayerInit cs).

(** This is a sync operation, so that the external API can safely call
    things in sequence. *)
Definition updateSelected (annotation : aref) (saveImmediately : bool)
    (resolve : M unit) : M unit :=
  s <- getState ;;
  match selectedAnnotation s with
  | Some selected =>
      if saveImmediately then
        d <- readAnnotation selected ;;
        if isSelection d then
          onCreateOrUpdateAnnotation onAnnotationCreated resolve annotation
            None
        else
          onCreateOrUpdateAnnotation onAnnotationUpdated resolve annotation
            (Some selected)
      else
        setState
          (fun s' => {| selectedAnnotation := Some annotation;
                        selectedDOMElement := selectedDOMElement s';
                        modifiedTarget := modifiedTarget s';
                        editorDisabled := editorDisabled s';
                        beforeHeadlessModify :=
                          match beforeHeadlessModify s with
                          | Some before => Some before
                          | None => selectedAnnotation s
                          end |})
          resolve
  | None => ret tt
  end.

(** Selection when editorDisabled == true.  When in headless mode, changing
    selection acts as 'Ok' - changes to the previous annotation are stored!
    (In normal mode, selection acts as 'Cancel'.) *)
Definition onHeadlessSelect (evt : SelectEvent) : M unit :=
  saveSelected (onNormalSelect evt).

Definition handleSelect (evt : SelectEvent) : M unit :=
  s <- getState ;;
  if editorDisabled s then onHeadlessSelect evt else onNormalSelect evt.

(** [render]: the editor is open when an annotation is selected and the
    component is not headless. *)
Definition editorOpen (s : State) : bool :=
  match selectedAnnotation s with
  | Some _ => negb (editorDisabled s)
  | None => false
  end.

(** *** Everything that can happen to a mounted component

    [componentDidMount] subscribes the handlers to the events of the
    annotation layer and, in headless mode, [headlessCancel] to the keyup
    events of the document; [render] gives the editor its four handlers.
    [Keyup] is a keyup event that reaches [headlessCancel]. *)

Inductive Action :=
(* document *)
| Keyup (which : Z)
(* annotation layer events *)
| Select (evt : SelectEvent)
| UpdateTarget (selectedDOMElement : option Element) (modifiedTarget : tref)
| MouseEnterAnnotation (a : aref)
| MouseLeaveAnnotation (a : aref)
(* the editor's props *)
| EditorCreated (a : aref) (previous : option aref)
| EditorUpdated (a : aref) (previous : option aref)
| EditorDeleted (a : aref)
| EditorCancel (a : aref)
(* the second argument of the created handler, called by the consumer *)
| OverrideId (a : aref) (forcedId : Id)
(* external API *)
| ApiAddAnnotation (a : aref)
| ApiCancelSelected
| ApiSetDisableEditor (disabled : bool)
| ApiGetAnnotations (layerAnnotations : list aref)
| ApiGetSelected (selected : option aref)
| ApiRemoveAnnotation (annotationOrId : AnnotationOrId)
| ApiSaveSelected
| ApiSelectAnnotation (found : option aref)
| ApiSetAnnotations (l : list aref)
| ApiUpdateSelected (a : aref) (saveImmediately : bool).

Definition run (act : Action) : M unit :=
  match act with
  | Keyup which => headlessCancel which
  | Select evt => handleSelect evt
  | UpdateTarget e t => handleUpdateTarget e t
  | MouseEnterAnnotation a => handleMouseEnter a
  | MouseLeaveAnnotation a => handleMouseLeave a
  | EditorCreated a previous =>
      onCreateOrUpdateAnnotation onAnnotationCreated undefined a previous
  | EditorUpdated a previous =>
      onCreateOrUpdateAnnotation onAnnotationUpdated undefined a previous
  | EditorDeleted a => onDeleteAnnotation a
  | EditorCancel a => onCancelAnnotation a undefined
  | OverrideId a forcedId => overrideAnnotationId a forcedId
  | ApiAddAnnotation a => addAnnotation a
  | ApiCancelSelected => cancelSelected
  | ApiSetDisableEditor disabled => set_disableEditor disabled
  | ApiGetAnnotations l => _ <- getAnnotations l ;; ret tt
  | ApiGetSelected selected => _ <- getSelected selected ;; ret tt
  | ApiRemoveAnnotation a => removeAnnotation a
  | ApiSaveSelected => saveSelected (log PromiseResolved)
  | ApiSelectAnnotation found => _ <- selectAnnotation found ;; ret tt
  | ApiSetAnnotations l => setAnnotations l
  | ApiUpdateSelected a saveImmediately =>
      updateSelected a saveImmediately (log PromiseResolved)
  end.

End ImageAnnotator.

(** ** Vocabulary of the specification *)

(** The state [clearState] leaves behind: the four selection fields are
    empty, the headless flag is what it was. *)
Definition cleared (s : State) : State :=
  {| selectedAnnotation := None;
     selectedDOMElement := None;
     modifiedTarget := None;
     editorDisabled := editorDisabled s;
     beforeHeadlessModify := None |}.

(** The state a select event leaves behind. *)
Definition selecting (evt : SelectEvent) (a : aref) (s : State) : State :=
  {| selectedAnnotation := Some a;
     selectedDOMElement := element evt;
     modifiedTarget := None;
     editorDisabled := editorDisabled s;
     beforeHeadlessModify := None |}.

(** The contents of a draft promoted to a full annotation. *)
Definition promoted (i : Id) (d : AnnotationData) : AnnotationData :=
  {| id := i; target := target d; body := body d;
     isSelection := false; readOnly := readOnly d |}.

(** The contents of an annotation cloned with another target. *)
Definition withTarget (tv : Target) (d : AnnotationData) : AnnotationData :=
  {| id := id d; target := tv; body := body d;
     isSelection := isSelection d; readOnly := readOnly d |}.

(** Merge precedence of a commit, in the words of the specification: a draft
    is first promoted; if [modifiedTarget] is set the annotation to commit is
    the annotation cloned with that target, otherwise cloned as it is. *)
Definition committed (w : World) (d : AnnotationData) : AnnotationData :=
  let d' := if isSelection d then promoted (Generated (uuid w)) d else d in
  match modifiedTarget (state w) with
  | Some t => match targets w !! t with
              | Some tv => withTarget tv d'
              | None => d'
              end
  | None => d'
  end.

(** Where the committed annotation is allocated: after the promoted draft,
    when there is one. *)
Definition committedRef (w : World) (d : AnnotationData) : aref :=
  if isSelection d then S (length (annotations w))
  else length (annotations w).

(** The world in which a commit of an annotation of contents [d] calls its
    callback. *)
Definition afterCommit (method : Method) (d : AnnotationData)
    (previous : option aref) (w : World) : World :=
  let a := committedRef w d in
  {| state := cleared (state w);
     annotations :=
       annotations w
       ++ (if isSelection d then [promoted (Generated (uuid w)) d] else [])
       ++ [committed w d]
       ++ match previous with
          | Some p => option_list (annotations w !! p)
          | None => []
          end;
     targets := targets w;
     uuid := if isSelection d then S (uuid w) else uuid w;
     trace := trace w ++
       [SetState (cleared (state w)); LayerDeselect;
        LayerAddOrUpdateAnnotation a previous;
        PropsMethod method a
          match previous with
          | Some _ => PreviousClone (S a)
          | None => IdOverrideCallback a
          end] |}.

(** The world in which a cancellation of [a] calls its callback. *)
Definition afterCancel (a : aref) (w : World) : World :=
  {| state := cleared (state w);
     annotations := annotations w;
     targets := targets w;
     uuid := uuid w;
     trace := trace w
              ++ (if editorDisabled (state w) then [] else [LayerDeselect])
              ++ [OnCancelSelected a; SetState (cleared (state w))] |}.

(** Classes of public events. *)
Definition isCancelled (e : Effect) : bool :=
  match e with OnCancelSelected _ => true | _ => false end.

Definition isSelectionEvent (e : Effect) : bool :=
  match e with
  | OnSelectionCreated _ | OnAnnotationSelected _ => true
  | _ => false
  end.

Definition isCreatedOrUpdated (e : Effect) : bool :=
  match e with PropsMethod _ _ _ => true | _ => false end.

Definition isPublicEvent (e : Effect) : bool :=
  match e with
  | OnSelectionCreated _ | OnAnnotationSelected _ | OnCancelSelected _
  | OnSelectionTargetChanged _ | PropsMethod _ _ _ | OnAnnotationDeleted _
  | OnMouseEnterAnnotation _ | OnMouseLeaveAnnotation _ => true
  | _ => false
  end.

(** Every reference the component holds or is handed is allocated. *)
Definition allocated (w : World) (a : aref) : Prop :=
  is_Some (annotations w !! a).

Definition allocatedTarget (w : World) (t : tref) : Prop :=
  is_Some (targets w !! t).

Definition wf (w : World) : Prop :=
  (forall a, selectedAnnotation (state w) = Some a -> allocated w a) /\
  (forall a, beforeHeadlessModify (state w) = Some a -> allocated w a) /\
  (forall t, modifiedTarget (state w) = Some t -> allocatedTarget w t).

Definition validAction (w : World) (act : Action) : Prop :=
  match act with
  | Select evt => forall a, annotation evt = Some a -> allocated w a
  | UpdateTarget _ t => allocatedTarget w t
  | MouseEnterAnnotation a | MouseLeaveAnnotation a | EditorDeleted a
  | EditorCancel a | OverrideId a _ | ApiAddAnnotation a
  | ApiUpdateSelected a _
  | ApiRemoveAnnotation (AnAnnotation a) => allocated w a
  | EditorCreated a previous | EditorUpdated a previous =>
      allocated w a /\ forall p, previous = Some p -> allocated w p
  | ApiGetAnnotations l | ApiSetAnnotations l => Forall (allocated w) l
  | ApiGetSelected o | ApiSelectAnnotation o =>
      forall a, o = Some a -> allocated w a
  | Keyup _ | ApiCancelSelected | ApiSetDisableEditor _ | ApiSaveSelected
  | ApiRemoveAnnotation (AnId _) => True
  end.

(** The transitions that finalize the current selection: commit, cancel,
    delete, headless Escape, id override with an open selection. *)
Definition finalizing (w : World) (act : Action) : Prop :=
  match act with
  | EditorCreated _ _ | EditorUpdated _ _ | EditorDeleted _
  | EditorCancel _ => True
  | Keyup which => which = 27%Z
  | OverrideId _ _ | ApiSaveSelected | ApiCancelSelected =>
      is_Some (selectedAnnotation (state w))
  | ApiUpdateSelected _ saveImmediately =>
      saveImmediately = true /\ is_Some (selectedAnnotation (state w))
  | _ => False
  end.

Definition isSetDisableEditor (act : Action) : bool :=
  match act with ApiSetDisableEditor _ => true | _ => false end.

(** A chain [updateSelected(x1, false).then(() => updateSelected(x2, false))
    ... .then(k)]. *)
Fixpoint updateSelectedEach (xs : list aref) (k : M unit) : M unit :=
  match xs with
  | [] => k
  | x :: xs' => updateSelected x false (updateSelectedEach xs' k)
  end.

(** What a consumer does when it writes into an object it was handed. *)
Definition mutate (a : aref) (f : AnnotationData -> AnnotationData)
    (w : World) : World :=
  {| state := state w;
     annotations := match annotations w !! a with
                    | Some d => <[a := f d]> (annotations w)
                    | None => annotations w
                    end;
     targets := targets w;
     uuid := uuid w;
     trace := trace w |}.

(** What the component sees through [this.state.selectedAnnotation]. *)
Definition selectedData (w : World) : option AnnotationData :=
  match selectedAnnotation (state w) with
  | Some a => annotations w !! a
  | None => None
  end.

(** An [isEqual] to run the component with: equality of contents. *)
#[global] Instance Target_eq_dec : EqDecision Target.
Proof. solve_decision. Defined.
#[global] Instance Id_eq_dec : EqDecision Id.
Proof. solve_decision. Defined.
#[global] Instance AnnotationData_eq_dec : EqDecision AnnotationData.
Proof. solve_decision. Defined.

Definition deepEqual (x y : AnnotationData) : bool := bool_decide (x = y).

(** The world after [toAnnotation] promoted a draft of contents [d]. *)
Definition afterPromote (d : AnnotationData) (w : World) : World :=
  {| state := state w;
     annotations := annotations w ++ [promoted (Generated (uuid w)) d];
     targets := targets w;
     uuid := S (uuid w);
     trace := trace w |}.

(** The world in which [updateSelected(x, false)] resolves. *)
Definition afterUpdate (x : aref) (w : World) : World :=
  let s :=
    {| selectedAnnotation := Some x;
       selectedDOMElement := selectedDOMElement (state w);
       modifiedTarget := modifiedTarget (state w);
       editorDisabled := editorDisabled (state w);
       beforeHeadlessModify :=
         match beforeHeadlessModify (state w) with
         | Some before => Some before
         | None => selectedAnnotation (state w)
         end |} in
  {| state := s;
     annotations := annotations w;
     targets := targets w;
     uuid := uuid w;
     trace := trace w ++ [SetState s] |}.

Definition isSetState (e : Effect) : bool :=
  match e with SetState _ => true | _ => false end.

(** The world after the current selection [old] was dropped on behalf of a
    select event. *)
Definition afterDeselect (old : aref) (w : World) : World :=
  {| state := cleared (state w);
     annotations := annotations w;
     targets := targets w;
     uuid := uuid w;
     trace := trace w ++ [SetState (cleared (state w)); OnCancelSelected old] |}.

(** The selection event for an annotation of contents [d], fired with the
    clone [c]. *)
Definition selectionEvent (d : AnnotationData) (c : aref) : Effect :=
  if isSelection d then OnSelectionCreated c else OnAnnotationSelected c.

(** The world after a select event took [a], of contents [d], as the
    selection. *)
Definition afterSelect (evt : SelectEvent) (a : aref) (d : AnnotationData)
    (w : World) : World :=
  {| state := selecting evt a (state w);
     annotations := annotations w ++ (if skipEvent evt then [] else [d]);
     targets := targets w;
     uuid := uuid w;
     trace := trace w ++ [SetState (selecting evt a (state w))]
              ++ (if skipEvent evt then []
                  else [selectionEvent d (length (annotations w))]) |}.

(** The world in which a chain of [updateSelected(x, false)] resolves. *)
Definition afterUpdates (xs : list aref) (w : World) : World :=
  fold_left (fun w x => afterUpdate x w) xs w.

(** A computation that leaves the headless flag alone. *)
Definition keepsMode {A} (m : M A) : Prop :=
  forall w x w',
    m w = Some (x, w') ->
    editorDisabled (state w') = editorDisabled (state w).

(** A finalizing transition ran to the end: the state is the cleared one,
    and it got there by the state update of [clearState]. *)
Definition finalized (w : World) (r : option (unit * World)) : Prop :=
  exists w' new,
    r = Some (tt, w') /\
    state w' = cleared (state w) /\
    trace w' = trace w ++ new /\
    In (SetState (cleared (state w))) new.

(** The object [c] of the world [w'] holds what the merge precedence
    prescribes for an annotation of contents [d] committed in the world [w]:
    [c] is a new object; a draft was promoted; the target is the one of
    [modifiedTarget] when that is set, the annotation's own otherwise. *)
Definition mergedInto (w w' : World) (d : AnnotationData) (c : aref)
    : Prop :=
  let base := if isSelection d then promoted (Generated (uuid w)) d else d in
  length (annotations w) <= c /\
  isSelection base = false /\
  match modifiedTarget (state w) with
  | Some t =>
      exists tv, targets w !! t = Some tv /\
                 annotations w' !! c = Some (withTarget tv base)
  | None => annotations w' !! c = Some base
  end.

(** An object handed to a handler that clones is a new one: allocated at or
    after the [n] annotation objects and [m] target objects there were when
    the transition began.  The cancellation and deleted handlers are left
    out: they are given the original. *)
Definition handsOutNew (n m : nat) (e : Effect) : Prop :=
  match e with
  | OnSelectionCreated a | OnAnnotationSelected a
  | OnMouseEnterAnnotation a | OnMouseLeaveAnnotation a => n <= a
  | PropsMethod _ a (IdOverrideCallback _) => n <= a
  | PropsMethod _ a (PreviousClone p) => n <= a /\ n <= p
  | OnSelectionTargetChanged t => m <= t
  | _ => True
  end.

(** A transition from [w] to [w']: the store only grows, [new] is what
    happened, and every clone handed out is a new object. *)
Definition grows (w w' : World) (new : list Effect) : Prop :=
  annotations w `prefix_of` annotations w' /\
  targets w `prefix_of` targets w' /\
  trace w' = trace w ++ new /\
  Forall (handsOutNew (length (annotations w)) (length (targets w))) new.

(** The worlds a mounted component can be in.  Between two transitions the
    environment may create objects (the annotation layer does, for a shape
    the user draws) and write into the ones it holds. *)
Inductive reachable (isEqual : AnnotationData -> AnnotationData -> bool)
    : World -> Prop :=
| reachable_mounted headless anns tgts :
    reachable isEqual {| state := initialState headless;
                         annotations := anns;
                         targets := tgts;
                         uuid := 0;
                         trace := [] |}
| reachable_run w act w' :
    reachable isEqual w ->
    validAction w act ->
    run isEqual act w = Some (tt, w') ->
    reachable isEqual w'
| reachable_new_annotation w d :
    reachable isEqual w ->
    reachable isEqual {| state := state w;
                         annotations := annotations w ++ [d];
                         targets := targets w;
                         uuid := uuid w;
                         trace := trace w |}
| reachable_new_target w t :
    reachable isEqual w ->
    reachable isEqual {| state := state w;
                         annotations := annotations w;
                         targets := targets w ++ [t];
                         uuid := uuid w;
                         trace := trace w |}
| reachable_mutate w a f :
    reachable isEqual w ->
    reachable isEqual (mutate a f w).

(** ** Sample objects *)

Module Scenario.

Definition T1 : Target := mkTarget "image.jpg" "xywh=pixel:10,10,40,40".
Definition T2 : Target := mkTarget "image.jpg" "xywh=pixel:50,50,40,40".

(** Two stored annotations and a draft. *)
Definition A : AnnotationData :=
  mkAnnotation (Given "#a") T1 ["first"] false false.
Definition B : AnnotationData :=
  mkAnnotation (Given "#b") T1 ["second"] false false.
Definition D : AnnotationData :=
  mkAnnotation (Given "#draft") T1 [] true false.

Definition a : aref := 0.
Definition b : aref := 1.
Definition d : aref := 2.

(** Nothing selected. *)
Definition idle (headless : bool) : State := initialState headless.

(** [x] selected, nothing changed yet. *)
Definition open (x : aref) (headless : bool) : State :=
  {| selectedAnnotation := Some x;
     selectedDOMElement := Some 7;
     modifiedTarget := None;
     editorDisabled := headless;
     beforeHeadlessModify := None |}.

(** [x] selected and its shape moved to the target object [0]. *)
Definition moved (x : aref) (headless : bool) : State :=
  {| selectedAnnotation := Some x;
     selectedDOMElement := Some 7;
     modifiedTarget := Some 0;
     editorDisabled := headless;
     beforeHeadlessModify := None |}.

Definition world (s : State) : World :=
  {| state := s;
     annotations := [A; B; D];
     targets := [T2];
     uuid := 0;
     trace := [] |}.

End Scenario.

(** ** The rest of the component *)

(** [render]: what the editor is given when it is shown. *)
Record EditorProps := mkEditorProps {
  editorAnnotation : aref;
  editorModifiedTarget : option tref;
  editorSelectedElement : option Element;
  editorReadOnly : bool
}.

(** [render].  The editor should open under normal conditions - annotation
    was selected, no headless mode.  [configReadOnly] is
    [this.props.config.readOnly]. *)
Definition render (configReadOnly : bool) : M (option EditorProps) :=
  s <- getState ;;
  match selectedAnnotation s with
  | Some a =>
      d <- readAnnotation a ;;
      let readOnly := configReadOnly || readOnly d in
      if negb (editorDisabled s) then
        ret (Some {| editorAnnotation := a;
                     editorModifiedTarget := modifiedTarget s;
                     editorSelectedElement := selectedDOMElement s;
                     editorReadOnly := readOnly |})
      else ret None
  | None => ret None
  end.







(** One action after the other, each one awaited. *)
Fixpoint runAll (isEqual : AnnotationData -> AnnotationData -> bool)
    (acts : list Action) : M unit :=
  match acts with
  | [] => ret tt
  | act :: acts' => run isEqual act ;; runAll isEqual acts'
  end.




(** ** Vocabulary of the further properties *)

(** The events that finalize a selection for the consumer. *)
Definition isFinalization (e : Effect) : bool :=
  isCancelled e || isCreatedOrUpdated e.


(** What the operations that only look at the component, or only talk to
    the annotation layer, may do: call the layer and fire the hover
    events. *)
Definition isPassiveEffect (e : Effect) : bool :=
  match e with
  | LayerAddOrUpdateAnnotation _ _ | LayerRemoveAnnotation _ | LayerInit _
  | LayerGetAnnotations | LayerGetSelected
  | OnMouseEnterAnnotation _ | OnMouseLeaveAnnotation _ => true
  | _ => false
  end.

Definition passive (act : Action) : bool :=
  match act with
  | MouseEnterAnnotation _ | MouseLeaveAnnotation _ | ApiAddAnnotation _
  | ApiGetAnnotations _ | ApiGetSelected _ | ApiRemoveAnnotation _
  | ApiSetAnnotations _ => true
  | _ => false
  end.

(** A computation whose state change is within [S] and whose effects are
    all in [P]. *)
Definition frames {A} (S : State -> State -> Prop) (P : Effect -> Prop)
    (m : M A) : Prop :=
  forall w x w',
    m w = Some (x, w') ->
    S (state w) (state w') /\
    exists new, trace w' = trace w ++ new /\ Forall P new.

(** No constraint on the state. *)
Definition anyState : State -> State -> Prop := fun _ _ => True.

(** The transitions that close the selection without telling the consumer
    that it was cancelled: the editor's delete, a [selectAnnotation] the
    layer cannot answer, an id override. *)
Definition discarding (act : Action) : bool :=
  match act with
  | EditorDeleted _ | OverrideId _ _ | ApiSelectAnnotation None => true
  | _ => false
  end.

Definition isLayerCall (e : Effect) : bool :=
  match e with
  | LayerDeselect | LayerAddOrUpdateAnnotation _ _ | LayerRemoveAnnotation _
  | LayerOverrideId _ _ | LayerInit _ | LayerSelectAnnotation
  | LayerGetAnnotations | LayerGetSelected => true
  | _ => false
  end.

(** At most one finalization event, at most one selection event, at most
    [k] events in all. *)
Definition firesAtMost (k : nat) (new : list Effect) : Prop :=
  length (List.filter isFinalization new) <= 1 /\
  length (List.filter isSelectionEvent new) <= 1 /\
  length (List.filter isPublicEvent new) <= k.

Definition isSelect (act : Action) : bool :=
  match act with Select _ => true | _ => false end.

(** ** Proof tools *)

Ltac solve_lookup :=
  repeat first [ eassumption | apply list_lookup_middle; reflexivity
               | apply lookup_app_l_Some ].

Ltac unfold_m :=
  unfold clearState, clone, toAnnotation, jsonClone, setState, undefined,
    readAnnotation, readTarget, newAnnotation, newTarget, freshId, log,
    getState, bind, ret in *.

(** Run the monad: compute, and read the store through the hypotheses. *)
Ltac crunch :=
  repeat (cbn in *;
    first [ match goal with
            | H : _ = _ |- _ => rewrite H
            end
          | rewrite list_lookup_middle by reflexivity
          | erewrite lookup_app_l_Some by solve_lookup ]).

(** Two descriptions of the same world. *)
Ltac same_world :=
  unfold withTarget, promoted, cleared, selecting, selectionEvent; cbn;
  rewrite <- ?app_assoc, ?length_app, ?app_nil_r; cbn;
  rewrite ?(Nat.add_comm (length _)); cbn;
  repeat match goal with H : _ = _ |- _ => rewrite H end;
  reflexivity.

(** ** The store only grows *)

Lemma lookup_new_0 {A} (l r : list A) (x : A) :
  (l ++ x :: r) !! length l = Some x.
Proof. by apply list_lookup_middle. Qed.

Lemma lookup_new_1 {A} (l r : list A) (x y : A) :
  (l ++ x :: y :: r) !! S (length l) = Some y.
Proof.
  rewrite lookup_app_r by lia.
  replace (S (length l) - length l) with 1 by lia. reflexivity.
Qed.

Lemma lookup_new_2 {A} (l r : list A) (x y z : A) :
  (l ++ x :: y :: z :: r) !! S (S (length l)) = Some z.
Proof.
  rewrite lookup_app_r by lia.
  replace (S (S (length l)) - length l) with 2 by lia. reflexivity.
Qed.

Ltac solve_new :=
  cbn; first [ apply lookup_new_0 | apply lookup_new_1 | apply lookup_new_2 ].

(** ** How each method runs *)

Lemma bind_run {A B} (m : M A) (k : A -> M B) w x w' :
  m w = Some (x, w') -> bind m k w = k x w'.
Proof. intros H. unfold bind. rewrite H. reflexivity. Qed.

Lemma clone_run a w d :
  annotations w !! a = Some d ->
  clone a None w
  = Some (length (annotations w),
          {| state := state w;
             annotations := annotations w ++ [d];
             targets := targets w;
             uuid := uuid w;
             trace := trace w |}).
Proof.
  intros H. unfold clone, bind, readAnnotation, newAnnotation.
  rewrite H. reflexivity.
Qed.

Section Runs.

Variable isEqual : AnnotationData -> AnnotationData -> bool.

Lemma onCreateOrUpdateAnnotation_run method cb annotation previous w d :
  annotations w !! annotation = Some d ->
  match modifiedTarget (state w) with
  | Some t => allocatedTarget w t
  | None => True
  end ->
  match previous with
  | Some p => allocated w p
  | None => True
  end ->
  onCreateOrUpdateAnnotation method cb annotation previous w
  = cb (afterCommit method d previous w).
Proof.
  intros Ha Ht Hp. destruct w as [s anns tgts u tr].
  unfold onCreateOrUpdateAnnotation, afterCommit, committed, committedRef,
    allocated, allocatedTarget in *.
  unfold_m. cbn in *.
  destruct (isSelection d) eqn:Hd, (modifiedTarget s) as [t|] eqn:Hm,
    previous as [p|];
    repeat match goal with H : is_Some _ |- _ => destruct H as [? H] end;
    crunch; same_world.
Qed.

Lemma onCancelAnnotation_run a cb w :
  onCancelAnnotation a cb w = cb (afterCancel a w).
Proof.
  destruct w as [s anns tgts u tr].
  unfold onCancelAnnotation, afterCancel. unfold_m. cbn.
  destruct (editorDisabled s); same_world.
Qed.

Lemma saveSelected_idle resolve w :
  selectedAnnotation (state w) = None ->
  saveSelected resolve w = resolve w.
Proof.
  intros Hs. unfold saveSelected. unfold_m. rewrite Hs. reflexivity.
Qed.

Lemma saveSelected_unchanged resolve w a d :
  selectedAnnotation (state w) = Some a ->
  annotations w !! a = Some d ->
  isSelection d = false ->
  modifiedTarget (state w) = None ->
  beforeHeadlessModify (state w) = None ->
  saveSelected resolve w = onCancelAnnotation a resolve w.
Proof.
  intros Hs Ha Hd Hm Hb. unfold saveSelected. unfold_m.
  rewrite Hs, Ha, Hd, Hb, Hm. reflexivity.
Qed.

Lemma saveSelected_target_only resolve w a d t :
  selectedAnnotation (state w) = Some a ->
  annotations w !! a = Some d ->
  isSelection d = false ->
  modifiedTarget (state w) = Some t ->
  beforeHeadlessModify (state w) = None ->
  saveSelected resolve w
  = onCreateOrUpdateAnnotation onAnnotationUpdated resolve a (Some a) w.
Proof.
  intros Hs Ha Hd Hm Hb. unfold saveSelected. unfold_m.
  rewrite Hs, Ha, Hd, Hb, Hm. reflexivity.
Qed.

Lemma saveSelected_modified resolve w a d before :
  selectedAnnotation (state w) = Some a ->
  annotations w !! a = Some d ->
  isSelection d = false ->
  beforeHeadlessModify (state w) = Some before ->
  saveSelected resolve w
  = onCreateOrUpdateAnnotation onAnnotationUpdated resolve a (Some before) w.
Proof.
  intros Hs Ha Hd Hb. unfold saveSelected. unfold_m.
  rewrite Hs, Ha, Hd, Hb. reflexivity.
Qed.

Lemma saveSelected_draft resolve w a d :
  selectedAnnotation (state w) = Some a ->
  annotations w !! a = Some d ->
  isSelection d = true ->
  saveSelected resolve w
  = onCreateOrUpdateAnnotation onAnnotationCreated resolve
      (length (annotations w)) (Some a) (afterPromote d w).
Proof.
  intros Hs Ha Hd. unfold saveSelected, afterPromote. unfold_m.
  rewrite Hs, Ha, Hd. cbn. rewrite Ha. reflexivity.
Qed.

Lemma updateSelected_idle x saveImmediately resolve w :
  selectedAnnotation (state w) = None ->
  updateSelected x saveImmediately resolve w = Some (tt, w).
Proof.
  intros Hs. unfold updateSelected. unfold_m. rewrite Hs. reflexivity.
Qed.

Lemma updateSelected_later x resolve w :
  is_Some (selectedAnnotation (state w)) ->
  updateSelected x false resolve w = resolve (afterUpdate x w).
Proof.
  intros [a Hs]. unfold updateSelected, afterUpdate. unfold_m.
  rewrite Hs. reflexivity.
Qed.

Lemma updateSelected_now x resolve w a d :
  selectedAnnotation (state w) = Some a ->
  annotations w !! a = Some d ->
  updateSelected x true resolve w
  = onCreateOrUpdateAnnotation
      (if isSelection d then onAnnotationCreated else onAnnotationUpdated)
      resolve x (if isSelection d then None else Some a) w.
Proof.
  intros Hs Ha. unfold updateSelected. unfold_m.
  rewrite Hs, Ha. destruct (isSelection d); reflexivity.
Qed.

End Runs.

Section Selecting.

Variable isEqual : AnnotationData -> AnnotationData -> bool.

(** A select event while nothing is selected. *)
Lemma onNormalSelect_first evt w a d :
  annotation evt = Some a ->
  annotations w !! a = Some d ->
  selectedAnnotation (state w) = None ->
  onNormalSelect isEqual evt w = Some (tt, afterSelect evt a d w).
Proof.
  intros He Ha Hs. destruct w as [s anns tgts u tr], evt as [oa el skip].
  unfold onNormalSelect, afterSelect. unfold_m. cbn in *.
  destruct skip, (isSelection d) eqn:Hd; crunch; same_world.
Qed.

(** A select event for what [isEqual] takes to be the current selection. *)
Lemma onNormalSelect_same evt w a d cur dcur :
  annotation evt = Some a ->
  annotations w !! a = Some d ->
  selectedAnnotation (state w) = Some cur ->
  annotations w !! cur = Some dcur ->
  isEqual dcur d = true ->
  onNormalSelect isEqual evt w = Some (tt, afterSelect evt a d w).
Proof.
  intros He Ha Hs Hc Heq.
  destruct w as [s anns tgts u tr], evt as [oa el skip].
  unfold onNormalSelect, afterSelect. unfold_m. cbn in *.
  destruct skip, (isSelection d) eqn:Hd; crunch; same_world.
Qed.

(** A select event for another annotation than the current selection. *)
Lemma onNormalSelect_other evt w a d cur dcur :
  annotation evt = Some a ->
  annotations w !! a = Some d ->
  selectedAnnotation (state w) = Some cur ->
  annotations w !! cur = Some dcur ->
  isEqual dcur d = false ->
  onNormalSelect isEqual evt w
  = Some (tt, afterSelect evt a d (afterDeselect cur w)).
Proof.
  intros He Ha Hs Hc Heq.
  destruct w as [s anns tgts u tr], evt as [oa el skip].
  unfold onNormalSelect, afterSelect, afterDeselect. unfold_m. cbn in *.
  destruct skip, (isSelection d) eqn:Hd; crunch; same_world.
Qed.

(** A select event without annotation: deselect. *)
Lemma onNormalSelect_none evt w cur :
  annotation evt = None ->
  selectedAnnotation (state w) = Some cur ->
  onNormalSelect isEqual evt w = Some (tt, afterDeselect cur w).
Proof.
  intros He Hs. destruct w as [s anns tgts u tr], evt as [oa el skip].
  unfold onNormalSelect, afterDeselect. unfold_m. cbn in *.
  crunch; same_world.
Qed.

End Selecting.

(** *** Successive non-immediate updates *)

Lemma updateSelectedEach_run xs k w :
  is_Some (selectedAnnotation (state w)) ->
  updateSelectedEach xs k w = k (afterUpdates xs w).
Proof.
  revert w. induction xs as [|x xs IH]; intros w Hs; [reflexivity|].
  cbn [updateSelectedEach afterUpdates fold_left].
  rewrite updateSelected_later by assumption.
  apply IH. cbn. eauto.
Qed.

Lemma afterUpdate_keeps_baseline x w before :
  beforeHeadlessModify (state w) = Some before ->
  beforeHeadlessModify (state (afterUpdate x w)) = Some before.
Proof. intros H. cbn. rewrite H. reflexivity. Qed.

Lemma afterUpdate_records_baseline x w :
  beforeHeadlessModify (state w) = None ->
  beforeHeadlessModify (state (afterUpdate x w))
  = selectedAnnotation (state w).
Proof. intros H. cbn. rewrite H. reflexivity. Qed.

Lemma afterUpdates_keeps_baseline xs w before :
  beforeHeadlessModify (state w) = Some before ->
  beforeHeadlessModify (state (afterUpdates xs w)) = Some before.
Proof.
  revert w. induction xs as [|x xs IH]; intros w H; [assumption|].
  apply IH. by apply afterUpdate_keeps_baseline.
Qed.

Lemma afterUpdates_selected xs w :
  selectedAnnotation (state (afterUpdates xs w))
  = match last xs with
    | Some x => Some x
    | None => selectedAnnotation (state w)
    end.
Proof.
  revert w. induction xs as [|x xs IH]; intros w; [reflexivity|].
  cbn [afterUpdates fold_left]. fold (afterUpdates xs (afterUpdate x w)).
  rewrite IH. destruct xs as [|y xs]; [reflexivity|].
  change (last (x :: y :: xs)) with (last (y :: xs)).
  destruct (last (y :: xs)) eqn:E; [reflexivity|].
  apply last_None in E. discriminate.
Qed.

Lemma afterUpdates_frame xs w :
  annotations (afterUpdates xs w) = annotations w /\
  targets (afterUpdates xs w) = targets w /\
  uuid (afterUpdates xs w) = uuid w /\
  modifiedTarget (state (afterUpdates xs w)) = modifiedTarget (state w) /\
  editorDisabled (state (afterUpdates xs w)) = editorDisabled (state w) /\
  exists mid, trace (afterUpdates xs w) = trace w ++ mid /\
              forallb isSetState mid = true.
Proof.
  revert w. induction xs as [|x xs IH]; intros w.
  - repeat split. exists []. by rewrite app_nil_r.
  - cbn [afterUpdates fold_left]. fold (afterUpdates xs (afterUpdate x w)).
    destruct (IH (afterUpdate x w)) as (-> & -> & -> & -> & -> & mid & -> & H).
    repeat split. eexists (_ :: mid). cbn. rewrite <- app_assoc.
    split; [reflexivity|assumption].
Qed.

(** *** Committing a draft with [saveSelected] *)

(** [saveSelected] hands the draft itself over as [previous], so the commit
    takes the branch of an update: the created handler receives a clone of
    the draft where the other create paths give the id-override callback. *)
Lemma saveSelected_draft_run resolve w a d :
  selectedAnnotation (state w) = Some a ->
  annotations w !! a = Some d ->
  isSelection d = true ->
  match modifiedTarget (state w) with
  | Some t => allocatedTarget w t
  | None => True
  end ->
  let a' := S (length (annotations w)) in
  let d' := promoted (Generated (uuid w)) d in
  saveSelected resolve w
  = resolve {| state := cleared (state w);
               annotations := annotations w
                              ++ [d'; committed (afterPromote d w) d'; d];
               targets := targets w;
               uuid := S (uuid w);
               trace := trace w ++
                 [SetState (cleared (state w)); LayerDeselect;
                  LayerAddOrUpdateAnnotation a' (Some a);
                  PropsMethod onAnnotationCreated a'
                    (PreviousClone (S a'))] |}.
Proof.
  intros Hs Ha Hd Ht a' d'.
  rewrite (saveSelected_draft resolve w a d) by assumption.
  rewrite (onCreateOrUpdateAnnotation_run onAnnotationCreated resolve
             _ (Some a) _ d').
  - unfold afterCommit, committedRef. cbn.
    rewrite (lookup_app_l_Some _ _ _ _ Ha), length_app. cbn.
    rewrite <- app_assoc, Nat.add_comm. reflexivity.
  - cbn. apply lookup_new_0.
  - exact Ht.
  - cbn. unfold allocated. cbn.
    rewrite (lookup_app_l_Some _ _ _ _ Ha). eauto.
Qed.

Lemma headlessCancel_escape w :
  headlessCancel 27 w
  = Some (tt, {| state := cleared (state w);
                 annotations := annotations w;
                 targets := targets w;
                 uuid := uuid w;
                 trace := trace w ++ [SetState (cleared (state w));
                                      LayerDeselect] |}).
Proof.
  unfold headlessCancel. unfold_m. cbn. rewrite <- app_assoc. reflexivity.
Qed.

(** *** The headless flag *)

Lemma keepsMode_ret {A} (x : A) : keepsMode (ret x).
Proof. intros w y w' H. injection H as _ <-. reflexivity. Qed.

Lemma keepsMode_bind {A B} (m : M A) (k : A -> M B) :
  keepsMode m -> (forall x, keepsMode (k x)) -> keepsMode (bind m k).
Proof.
  intros Hm Hk w y w' H. unfold bind in H.
  destruct (m w) as [[x w1]|] eqn:E; [|discriminate].
  rewrite (Hk x w1 y w' H). exact (Hm w x w1 E).
Qed.

Lemma keepsMode_getState : keepsMode getState.
Proof. intros w y w' H. injection H as _ <-. reflexivity. Qed.

Lemma keepsMode_log e : keepsMode (log e).
Proof. intros w y w' H. injection H as _ <-. reflexivity. Qed.

Lemma keepsMode_readAnnotation a : keepsMode (readAnnotation a).
Proof.
  intros w y w' H. unfold readAnnotation in H.
  destruct (annotations w !! a); [|discriminate].
  injection H as _ <-. reflexivity.
Qed.

Lemma keepsMode_readTarget t : keepsMode (readTarget t).
Proof.
  intros w y w' H. unfold readTarget in H.
  destruct (targets w !! t); [|discriminate].
  injection H as _ <-. reflexivity.
Qed.

Lemma keepsMode_newAnnotation d : keepsMode (newAnnotation d).
Proof. intros w y w' H. injection H as _ <-. reflexivity. Qed.

Lemma keepsMode_newTarget d : keepsMode (newTarget d).
Proof. intros w y w' H. injection H as _ <-. reflexivity. Qed.

Lemma keepsMode_freshId : keepsMode freshId.
Proof. intros w y w' H. injection H as _ <-. reflexivity. Qed.

Lemma keepsMode_setState partial callback :
  (forall s, editorDisabled (partial s) = editorDisabled s) ->
  keepsMode callback ->
  keepsMode (setState partial callback).
Proof.
  intros Hp Hc w y w' H. unfold setState in H.
  rewrite (Hc _ y w' H). cbn. apply Hp.
Qed.

Create HintDb mode discriminated.

#[local] Hint Resolve keepsMode_ret keepsMode_getState keepsMode_log
  keepsMode_readAnnotation keepsMode_readTarget keepsMode_newAnnotation
  keepsMode_newTarget keepsMode_freshId : mode.

(** Go through a method, one statement after the other. *)
Ltac keeps :=
  repeat (intros;
    lazymatch goal with
    | |- keepsMode (bind _ _) => apply keepsMode_bind
    | |- keepsMode (setState _ _) =>
        apply keepsMode_setState; [reflexivity|]
    | |- keepsMode (match ?x with _ => _ end) => destruct x
    | |- keepsMode _ => solve [auto with mode]
    end).

Lemma keepsMode_clone a t : keepsMode (clone a t).
Proof. unfold clone. keeps. Qed.

Lemma keepsMode_toAnnotation a : keepsMode (toAnnotation a).
Proof. unfold toAnnotation. keeps. Qed.

Lemma keepsMode_jsonClone t : keepsMode (jsonClone t).
Proof. unfold jsonClone. keeps. Qed.

#[local] Hint Resolve keepsMode_clone keepsMode_toAnnotation
  keepsMode_jsonClone : mode.

Lemma keepsMode_mapM {A B} (f : A -> M B) (l : list A) :
  (forall x, keepsMode (f x)) -> keepsMode (mapM f l).
Proof. intros Hf. induction l as [|x l IH]; cbn [mapM]; keeps. Qed.

Lemma keepsMode_clearState callback :
  keepsMode callback -> keepsMode (clearState callback).
Proof. intros H. unfold clearState. keeps. Qed.

Lemma keepsMode_onCreateOrUpdateAnnotation method cb a previous :
  keepsMode cb ->
  keepsMode (onCreateOrUpdateAnnotation method cb a previous).
Proof.
  intros H. unfold onCreateOrUpdateAnnotation, clearState. keeps.
Qed.

Lemma keepsMode_onCancelAnnotation a cb :
  keepsMode cb -> keepsMode (onCancelAnnotation a cb).
Proof. intros H. unfold onCancelAnnotation, clearState. keeps. Qed.

Lemma keepsMode_onNormalSelect isEqual evt :
  keepsMode (onNormalSelect isEqual evt).
Proof. unfold onNormalSelect, clearState, undefined. keeps. Qed.

#[local] Hint Resolve keepsMode_clearState
  keepsMode_onCreateOrUpdateAnnotation keepsMode_onCancelAnnotation
  keepsMode_onNormalSelect keepsMode_mapM : mode.

Lemma keepsMode_saveSelected resolve :
  keepsMode resolve -> keepsMode (saveSelected resolve).
Proof. intros H. unfold saveSelected. keeps. Qed.

Lemma keepsMode_updateSelected x saveImmediately resolve :
  keepsMode resolve -> keepsMode (updateSelected x saveImmediately resolve).
Proof. intros H. unfold updateSelected. keeps. Qed.

#[local] Hint Resolve keepsMode_saveSelected keepsMode_updateSelected : mode.

Lemma keepsMode_run isEqual act :
  isSetDisableEditor act = false -> keepsMode (run isEqual act).
Proof.
  intros H. destruct act; try discriminate H; cbn [run];
    unfold headlessCancel, handleSelect, onHeadlessSelect,
      handleUpdateTarget, handleMouseEnter, handleMouseLeave,
      overrideAnnotationId, onDeleteAnnotation, addAnnotation,
      cancelSelected, getAnnotations, getSelected, removeAnnotation,
      selectAnnotation, setAnnotations, undefined;
    keeps.
Qed.

(** ** Every transition runs, and keeps the world well formed *)

Lemma handsOutNew_mono n n' m m' e :
  n <= n' -> m <= m' -> handsOutNew n' m' e -> handsOutNew n m e.
Proof.
  intros Hn Hm. destruct e as [| | | | | | | | | | | | |? ? []| | | | | |];
    cbn; intros; lia.
Qed.

Lemma grows_refl w : grows w w [].
Proof.
  repeat split; [reflexivity..|by rewrite app_nil_r|constructor].
Qed.

Lemma grows_trans w w1 w2 new1 new2 :
  grows w w1 new1 -> grows w1 w2 new2 -> grows w w2 (new1 ++ new2).
Proof.
  intros (Ha1 & Ht1 & Hr1 & Hn1) (Ha2 & Ht2 & Hr2 & Hn2).
  repeat split.
  - by etrans.
  - by etrans.
  - rewrite Hr2, Hr1, app_assoc. reflexivity.
  - apply Forall_app. split; [assumption|].
    eapply Forall_impl; [exact Hn2|]. intros e.
    apply handsOutNew_mono; by apply prefix_length.
Qed.

Lemma grows_allocated w w' new a :
  grows w w' new -> allocated w a -> allocated w' a.
Proof.
  intros ([k Hk] & _) [d Hd]. exists d. rewrite Hk.
  by apply lookup_app_l_Some.
Qed.

Lemma grows_allocatedTarget w w' new t :
  grows w w' new -> allocatedTarget w t -> allocatedTarget w' t.
Proof.
  intros (_ & [k Hk] & _) [d Hd]. exists d. rewrite Hk.
  by apply lookup_app_l_Some.
Qed.

Lemma wf_cleared w s : state w = cleared s -> wf w.
Proof. intros H. repeat split; intros x; rewrite H; discriminate. Qed.

Lemma wf_grows w w' new :
  wf w -> grows w w' new -> state w' = state w -> wf w'.
Proof.
  intros (Hs & Hb & Ht) Hg He. repeat split; intros x; rewrite He; intros H.
  - eapply grows_allocated; eauto.
  - eapply grows_allocated; eauto.
  - eapply grows_allocatedTarget; eauto.
Qed.

Lemma wf_grows_same_state w w' new :
  wf w -> state w' = state w -> grows w w' new ->
  wf w' /\ grows w w' new.
Proof. intros Hwf He Hg. split; [by eapply wf_grows|assumption]. Qed.

Ltac solve_prefix :=
  first [ reflexivity | eexists; rewrite <- ?app_assoc; reflexivity ].

Ltac solve_grows :=
  unfold grows; cbn;
  split; [solve_prefix|];
  split; [solve_prefix|];
  split; [rewrite <- ?app_assoc;
          first [reflexivity | symmetry; apply app_nil_r]|];
  repeat constructor; cbn; lia.

Lemma grows_afterCommit method d previous w :
  grows w (afterCommit method d previous w)
    [SetState (cleared (state w)); LayerDeselect;
     LayerAddOrUpdateAnnotation (committedRef w d) previous;
     PropsMethod method (committedRef w d)
       match previous with
       | Some _ => PreviousClone (S (committedRef w d))
       | None => IdOverrideCallback (committedRef w d)
       end].
Proof.
  unfold grows, afterCommit, committedRef. cbn.
  split; [eexists; reflexivity|]. split; [reflexivity|].
  split; [reflexivity|].
  destruct (isSelection d), previous; repeat constructor; cbn; lia.
Qed.

Lemma grows_afterCancel a w :
  grows w (afterCancel a w)
    ((if editorDisabled (state w) then [] else [LayerDeselect])
     ++ [OnCancelSelected a; SetState (cleared (state w))]).
Proof.
  unfold grows, afterCancel. cbn.
  repeat split; [reflexivity..|].
  destruct (editorDisabled (state w)); repeat constructor.
Qed.

Lemma grows_afterDeselect a w :
  grows w (afterDeselect a w)
    [SetState (cleared (state w)); OnCancelSelected a].
Proof.
  unfold grows, afterDeselect. cbn.
  repeat split; [reflexivity..|repeat constructor].
Qed.

Lemma grows_afterSelect evt a d w :
  grows w (afterSelect evt a d w)
    ([SetState (selecting evt a (state w))]
     ++ (if skipEvent evt then []
         else [selectionEvent d (length (annotations w))])).
Proof.
  unfold grows, afterSelect, selectionEvent. cbn.
  split; [eexists; reflexivity|]. split; [reflexivity|].
  split; [reflexivity|].
  destruct (skipEvent evt), (isSelection d); repeat constructor; cbn; lia.
Qed.

Lemma wf_afterSelect evt a d w :
  allocated w a -> wf (afterSelect evt a d w).
Proof.
  intros [x Hx]. repeat split; cbn; intros y H; try discriminate.
  injection H as <-. exists x. cbn. by apply lookup_app_l_Some.
Qed.

(** Cloning a list of allocated objects, as [getAnnotations] and
    [setAnnotations] do. *)
Lemma mapM_clone_run l : forall w,
  Forall (allocated w) l ->
  exists cs ds,
    mapM (fun a => clone a None) l w
    = Some (cs, {| state := state w;
                   annotations := annotations w ++ ds;
                   targets := targets w;
                   uuid := uuid w;
                   trace := trace w |}).
Proof.
  induction l as [|a l IH]; intros w Hl.
  - exists [], []. destruct w. cbn. by rewrite app_nil_r.
  - inversion Hl as [|? ? [d Hd] Hl']; subst.
    set (w1 := {| state := state w; annotations := annotations w ++ [d];
                  targets := targets w; uuid := uuid w;
                  trace := trace w |}).
    destruct (IH w1) as (cs & ds & Hrun).
    { eapply Forall_impl; [exact Hl'|]. intros x [y Hy]. exists y.
      cbn. by apply lookup_app_l_Some. }
    exists (length (annotations w) :: cs), (d :: ds).
    cbn [mapM].
    rewrite (bind_run _ _ w _ w1) by (by apply clone_run).
    rewrite (bind_run _ _ w1 _ _ Hrun). cbn.
    by rewrite <- app_assoc.
Qed.

(** [saveSelected] with a selection, whatever it resolves into. *)
Lemma saveSelected_finalizes w :
  wf w ->
  is_Some (selectedAnnotation (state w)) ->
  exists w1 new,
    (forall k, saveSelected k w = k w1) /\
    state w1 = cleared (state w) /\
    grows w w1 new /\
    In (SetState (cleared (state w))) new.
Proof.
  intros (Hsel & Hbase & Htgt) [a Hs].
  destruct (Hsel a Hs) as [d Ha].
  assert (Ht : match modifiedTarget (state w) with
               | Some t => allocatedTarget w t
               | None => True
               end)
    by (destruct (modifiedTarget (state w)) as [t|] eqn:E; auto).
  destruct (isSelection d) eqn:Hd.
  - eexists. eexists. split.
    { intros k. apply saveSelected_draft_run; eassumption. }
    split; [reflexivity|]. split.
    { unfold grows. cbn.
      split; [eexists; reflexivity|]. split; [reflexivity|].
      split; [reflexivity|]. repeat constructor; cbn; lia. }
    left; reflexivity.
  - destruct (beforeHeadlessModify (state w)) as [before|] eqn:Hb.
    + eexists. eexists. split.
      { intros k. rewrite (saveSelected_modified k w a d before)
          by assumption.
        apply onCreateOrUpdateAnnotation_run; try eassumption.
        apply Hbase; reflexivity. }
      split; [reflexivity|].
      split; [apply grows_afterCommit|left; reflexivity].
    + destruct (modifiedTarget (state w)) as [t|] eqn:Hm.
      * eexists. eexists. split.
        { intros k. rewrite (saveSelected_target_only k w a d t)
            by assumption.
          apply onCreateOrUpdateAnnotation_run;
            rewrite ?Hm; try eassumption.
          apply Hsel; assumption. }
        split; [reflexivity|].
        split; [apply grows_afterCommit|left; reflexivity].
      * eexists. eexists. split.
        { intros k. rewrite (saveSelected_unchanged k w a d)
            by assumption.
          apply onCancelAnnotation_run. }
        split; [reflexivity|].
        split; [apply grows_afterCancel|].
        destruct (editorDisabled (state w)); cbn; auto.
Qed.

Lemma onNormalSelect_progress isEqual evt w :
  wf w ->
  (forall a, annotation evt = Some a -> allocated w a) ->
  exists w' new,
    onNormalSelect isEqual evt w = Some (tt, w') /\
    wf w' /\
    grows w w' new.
Proof.
  intros Hwf Hv. pose proof Hwf as (Hsel & _).
  destruct (annotation evt) as [a|] eqn:He,
    (selectedAnnotation (state w)) as [cur|] eqn:Hs.
  - destruct (Hv a eq_refl) as [d Ha]. destruct (Hsel cur eq_refl) as [dc Hc].
    destruct (isEqual dc d) eqn:Heq.
    + rewrite (onNormalSelect_same isEqual evt w a d cur dc) by assumption.
      eexists. eexists. split; [reflexivity|].
      split; [apply wf_afterSelect; eauto|apply grows_afterSelect].
    + rewrite (onNormalSelect_other isEqual evt w a d cur dc) by assumption.
      eexists. eexists. split; [reflexivity|].
      split; [apply wf_afterSelect; cbn; eauto|].
      eapply grows_trans; [apply grows_afterDeselect|].
      apply grows_afterSelect.
  - destruct (Hv a eq_refl) as [d Ha].
    rewrite (onNormalSelect_first isEqual evt w a d) by assumption.
    eexists. eexists. split; [reflexivity|].
    split; [apply wf_afterSelect; eauto|apply grows_afterSelect].
  - rewrite (onNormalSelect_none isEqual evt w cur) by assumption.
    eexists. eexists. split; [reflexivity|].
    split; [by eapply wf_cleared|apply grows_afterDeselect].
  - unfold onNormalSelect. rewrite He. unfold_m. rewrite Hs. cbn.
    eexists. eexists. split; [reflexivity|].
    split; [by eapply wf_cleared|].
    repeat split; cbn; [reflexivity..|repeat constructor].
Qed.

(** A well-formed world takes every valid action: the run ends, the world
    is well formed again, the store has only grown, and every object given
    to a cloning handler is a new one. *)
Theorem run_progress isEqual act w :
  wf w ->
  validAction w act ->
  exists w' new,
    run isEqual act w = Some (tt, w') /\ wf w' /\ grows w w' new.
Proof.
  intros Hwf Hv. pose proof Hwf as (Hsel & Hbase & Htgt).
  assert (Ht : match modifiedTarget (state w) with
               | Some t => allocatedTarget w t
               | None => True
               end)
    by (destruct (modifiedTarget (state w)) as [t|] eqn:E; auto).
  destruct act; cbn in Hv; cbn [run].
  - (* keyup *)
    unfold headlessCancel. destruct (which =? 27)%Z.
    + unfold_m. cbn. eexists. eexists. split; [reflexivity|].
      split; [by eapply wf_cleared|]. solve_grows.
    + eexists. eexists. split; [reflexivity|].
      split; [assumption|apply grows_refl].
  - (* select *)
    unfold handleSelect, bind, getState.
    destruct (editorDisabled (state w)).
    + unfold onHeadlessSelect.
      destruct (selectedAnnotation (state w)) as [cur|] eqn:Hs.
      * destruct (saveSelected_finalizes w Hwf) as (w1 & new1 & Hrun & Hst & Hg & _);
          [rewrite Hs; eauto|].
        rewrite Hrun.
        destruct (onNormalSelect_progress isEqual evt w1)
          as (w' & new & Hrun' & Hwf' & Hg').
        { by eapply wf_cleared. }
        { intros a Ha. eapply grows_allocated; eauto. }
        exists w', (new1 ++ new). split; [assumption|].
        split; [assumption|by eapply grows_trans].
      * rewrite saveSelected_idle by assumption.
        by apply onNormalSelect_progress.
    + by apply onNormalSelect_progress.
  - (* updateTarget *)
    destruct Hv as [tv Hv].
    unfold handleUpdateTarget. unfold_m. cbn. rewrite Hv.
    eexists. eexists. split; [reflexivity|]. split.
    + repeat split; cbn; intros x H.
      * apply Hsel; assumption.
      * apply Hbase; assumption.
      * injection H as <-. exists tv. cbn. by apply lookup_app_l_Some.
    + unfold grows. cbn. split; [reflexivity|].
      split; [eexists; reflexivity|]. rewrite <- app_assoc.
      split; [reflexivity|]. repeat constructor; cbn; lia.
  - (* mouse enter *)
    destruct Hv as [d Hd]. unfold handleMouseEnter.
    rewrite (bind_run _ _ w _ _ (clone_run a w d Hd)).
    eexists. eexists. split; [reflexivity|].
    apply wf_grows_same_state; [assumption|reflexivity|].
    unfold grows. cbn. split; [eexists; reflexivity|].
    split; [reflexivity|]. split; [reflexivity|].
    repeat constructor; cbn; lia.
  - (* mouse leave *)
    destruct Hv as [d Hd]. unfold handleMouseLeave.
    rewrite (bind_run _ _ w _ _ (clone_run a w d Hd)).
    eexists. eexists. split; [reflexivity|].
    apply wf_grows_same_state; [assumption|reflexivity|].
    unfold grows. cbn. split; [eexists; reflexivity|].
    split; [reflexivity|]. split; [reflexivity|].
    repeat constructor; cbn; lia.
  - (* the editor creates *)
    destruct Hv as [[d Ha] Hp].
    rewrite (onCreateOrUpdateAnnotation_run _ _ _ _ _ d)
      by (try assumption; destruct previous; auto).
    eexists. eexists. split; [reflexivity|].
    split; [by eapply wf_cleared|apply grows_afterCommit].
  - (* the editor updates *)
    destruct Hv as [[d Ha] Hp].
    rewrite (onCreateOrUpdateAnnotation_run _ _ _ _ _ d)
      by (try assumption; destruct previous; auto).
    eexists. eexists. split; [reflexivity|].
    split; [by eapply wf_cleared|apply grows_afterCommit].
  - (* the editor deletes *)
    unfold onDeleteAnnotation. unfold_m. cbn.
    eexists. eexists. split; [reflexivity|].
    split; [by eapply wf_cleared|]. solve_grows.
  - (* the editor cancels *)
    rewrite onCancelAnnotation_run.
    eexists. eexists. split; [reflexivity|].
    split; [by eapply wf_cleared|apply grows_afterCancel].
  - (* id override *)
    destruct Hv as [d Ha].
    unfold overrideAnnotationId. unfold_m. rewrite Ha. cbn.
    destruct (selectedAnnotation (state w)) as [cur|] eqn:Hs; cbn.
    + eexists. eexists. split; [reflexivity|].
      split; [by eapply wf_cleared|]. solve_grows.
    + eexists. eexists. split; [reflexivity|].
      apply wf_grows_same_state; [assumption|reflexivity|].
      solve_grows.
  - (* addAnnotation *)
    destruct Hv as [d Hd]. unfold addAnnotation.
    rewrite (bind_run _ _ w _ _ (clone_run a w d Hd)).
    eexists. eexists. split; [reflexivity|].
    apply wf_grows_same_state; [assumption|reflexivity|].
    unfold grows. cbn. split; [eexists; reflexivity|].
    split; [reflexivity|]. split; [reflexivity|]. repeat constructor.
  - (* cancelSelected *)
    unfold cancelSelected, bind, getState.
    destruct (selectedAnnotation (state w)) as [cur|] eqn:Hs.
    + rewrite onCancelAnnotation_run.
      eexists. eexists. split; [reflexivity|].
      split; [by eapply wf_cleared|apply grows_afterCancel].
    + eexists. eexists. split; [reflexivity|].
      split; [assumption|apply grows_refl].
  - (* the disableEditor setter *)
    unfold set_disableEditor. unfold_m. cbn.
    destruct disabled; cbn.
    all: eexists; eexists; (split; [reflexivity|]).
    all: split; [repeat split; cbn; auto|solve_grows].
  - (* getAnnotations *)
    unfold getAnnotations, bind, log. cbn.
    match goal with
    | |- context [mapM _ _ ?w0] =>
        destruct (mapM_clone_run layerAnnotations w0) as (cs & ds & Hrun);
          [exact Hv|]; rewrite Hrun
    end.
    cbn.
    eexists. eexists. split; [reflexivity|].
    apply wf_grows_same_state; [assumption|reflexivity|].
    unfold grows. cbn. split; [eexists; reflexivity|].
    split; [reflexivity|]. split; [reflexivity|]. repeat constructor.
  - (* getSelected *)
    unfold getSelected. unfold_m. cbn.
    destruct selected as [a|]; cbn.
    + destruct (Hv a eq_refl) as [d Hd]. rewrite Hd. cbn.
      eexists. eexists. split; [reflexivity|].
      apply wf_grows_same_state; [assumption|reflexivity|].
      unfold grows. cbn. split; [eexists; reflexivity|].
      split; [reflexivity|]. split; [reflexivity|]. repeat constructor.
    + eexists. eexists. split; [reflexivity|].
      apply wf_grows_same_state; [assumption|reflexivity|].
      solve_grows.
  - (* removeAnnotation *)
    eexists. eexists. split; [reflexivity|].
    apply wf_grows_same_state; [assumption|reflexivity|].
    solve_grows.
  - (* saveSelected *)
    destruct (selectedAnnotation (state w)) as [cur|] eqn:Hs.
    + destruct (saveSelected_finalizes w Hwf) as (w1 & new1 & Hrun & Hst & Hg & _);
        [rewrite Hs; eauto|].
      rewrite Hrun. eexists. exists (new1 ++ [PromiseResolved]).
      split; [reflexivity|]. split; [by eapply wf_cleared|].
      eapply grows_trans; [exact Hg|]. solve_grows.
    + rewrite saveSelected_idle by assumption.
      eexists. eexists. split; [reflexivity|].
      apply wf_grows_same_state; [assumption|reflexivity|].
      solve_grows.
  - (* selectAnnotation *)
    unfold selectAnnotation. unfold_m. cbn.
    destruct found as [a|]; cbn.
    + destruct (Hv a eq_refl) as [d Hd]. rewrite Hd. cbn.
      eexists. eexists. split; [reflexivity|].
      apply wf_grows_same_state; [assumption|reflexivity|].
      unfold grows. cbn. split; [eexists; reflexivity|].
      split; [reflexivity|]. split; [reflexivity|]. repeat constructor.
    + eexists. eexists. split; [reflexivity|].
      split; [by eapply wf_cleared|]. solve_grows.
  - (* setAnnotations *)
    unfold setAnnotations.
    destruct (mapM_clone_run l w Hv) as (cs & ds & Hrun).
    rewrite (bind_run _ _ w _ _ Hrun).
    eexists. eexists. split; [reflexivity|].
    apply wf_grows_same_state; [assumption|reflexivity|].
    unfold grows. cbn. split; [eexists; reflexivity|].
    split; [reflexivity|]. split; [reflexivity|]. repeat constructor.
  - (* updateSelected *)
    destruct Hv as [d Ha].
    destruct (selectedAnnotation (state w)) as [cur|] eqn:Hs.
    + destruct saveImmediately.
      * destruct (Hsel cur eq_refl) as [dcur Hc].
        rewrite (updateSelected_now _ _ _ cur dcur) by assumption.
        rewrite (onCreateOrUpdateAnnotation_run _ _ _ _ _ d)
          by (try assumption; destruct (isSelection dcur); auto).
        eexists. eexists. split; [reflexivity|].
        split; [by eapply wf_cleared|].
        eapply grows_trans; [apply grows_afterCommit|]. solve_grows.
      * rewrite updateSelected_later by (rewrite Hs; eauto).
        eexists. eexists. split; [reflexivity|]. split.
        -- repeat split; cbn; intros x H.
           ++ injection H as <-. by exists d.
           ++ destruct (beforeHeadlessModify (state w)) eqn:Hb;
                [apply Hbase; congruence|apply Hsel; congruence].
           ++ by apply Htgt.
        -- solve_grows.
    + rewrite updateSelected_idle by assumption.
      eexists. eexists. split; [reflexivity|].
      split; [assumption|apply grows_refl].
Qed.

(** Well-formedness is an invariant of the mounted component. *)
Theorem reachable_wf isEqual w : reachable isEqual w -> wf w.
Proof.
  induction 1 as [headless anns tgts|w act w' _ IH Hv Hrun|w d _ IH
                 |w t _ IH|w a f _ IH].
  - by eapply (wf_cleared _ (initialState headless)).
  - destruct (run_progress isEqual act w IH Hv) as (w'' & new & Hrun' & Hwf & _).
    rewrite Hrun in Hrun'. by injection Hrun' as <-.
  - eapply (wf_grows w _ []); [assumption| |reflexivity].
    repeat split; cbn; [by eexists|reflexivity|by rewrite app_nil_r|constructor].
  - eapply (wf_grows w _ []); [assumption| |reflexivity].
    repeat split; cbn; [reflexivity|by eexists|by rewrite app_nil_r|constructor].
  - destruct IH as (Hs & Hb & Ht).
    assert (Hkeep : forall x, allocated w x -> allocated (mutate a f w) x).
    { intros x [dx Hx]. unfold allocated, mutate. cbn.
      destruct (annotations w !! a) as [da|] eqn:Ha; [|by exists dx].
      destruct (decide (a = x)) as [->|Hne].
      - exists (f da). apply list_lookup_insert_eq.
        by eapply lookup_lt_Some.
      - exists dx. by rewrite list_lookup_insert_ne. }
    repeat split; cbn; intros x H; auto.
    exact (Ht x H).
Qed.

(** The callback of the [disableEditor] setter runs once the flag is
    updated, so it compares [disabled] with itself: the keyup listener is
    neither added nor removed. *)
Lemma set_disableEditor_run disabled w :
  set_disableEditor disabled w
  = Some (tt, let s := {| selectedAnnotation := selectedAnnotation (state w);
                          selectedDOMElement := selectedDOMElement (state w);
                          modifiedTarget := modifiedTarget (state w);
                          editorDisabled := disabled;
                          beforeHeadlessModify :=
                            beforeHeadlessModify (state w) |} in
              {| state := s;
                 annotations := annotations w;
                 targets := targets w;
                 uuid := uuid w;
                 trace := trace w ++ [SetState s] |}).
Proof.
  unfold set_disableEditor. unfold_m. cbn. destruct disabled; reflexivity.
Qed.

(** The id-override callback: the editor is closed first when a selection
    is open, whichever annotation it is on; the layer is then asked to
    replace the identifier the annotation has at that moment. *)
Lemma overrideAnnotationId_run a forcedId w d :
  annotations w !! a = Some d ->
  overrideAnnotationId a forcedId w
  = Some (tt,
          match selectedAnnotation (state w) with
          | Some _ =>
              {| state := cleared (state w);
                 annotations := annotations w;
                 targets := targets w;
                 uuid := uuid w;
                 trace := trace w ++ [SetState (cleared (state w));
                                      LayerOverrideId (id d) forcedId] |}
          | None =>
              {| state := state w;
                 annotations := annotations w;
                 targets := targets w;
                 uuid := uuid w;
                 trace := trace w ++ [LayerOverrideId (id d) forcedId] |}
          end).
Proof.
  intros Ha. unfold overrideAnnotationId. unfold_m. rewrite Ha.
  destruct (selectedAnnotation (state w)); cbn;
    rewrite <- ?app_assoc; reflexivity.
Qed.

Lemma cancelSelected_run w cur :
  selectedAnnotation (state w) = Some cur ->
  cancelSelected w = Some (tt, afterCancel cur w).
Proof.
  intros Hs. unfold cancelSelected, bind, getState. rewrite Hs.
  apply onCancelAnnotation_run.
Qed.

(** *** Finalizing transitions *)

Lemma finalized_commit method d previous w (k : M unit) extra :
  (forall w0, k w0 = Some (tt, {| state := state w0;
                                  annotations := annotations w0;
                                  targets := targets w0;
                                  uuid := uuid w0;
                                  trace := trace w0 ++ extra |})) ->
  finalized w (k (afterCommit method d previous w)).
Proof.
  intros Hk. rewrite Hk. eexists. eexists. split; [reflexivity|].
  cbn. split; [reflexivity|]. rewrite <- app_assoc.
  split; [reflexivity|]. left. reflexivity.
Qed.

Lemma finalized_cancel a w (k : M unit) extra :
  (forall w0, k w0 = Some (tt, {| state := state w0;
                                  annotations := annotations w0;
                                  targets := targets w0;
                                  uuid := uuid w0;
                                  trace := trace w0 ++ extra |})) ->
  finalized w (k (afterCancel a w)).
Proof.
  intros Hk. rewrite Hk. eexists. eexists. split; [reflexivity|].
  cbn. split; [reflexivity|]. rewrite <- app_assoc.
  split; [reflexivity|].
  destruct (editorDisabled (state w)); cbn; auto.
Qed.

Lemma undefined_run w0 :
  undefined w0 = Some (tt, {| state := state w0;
                              annotations := annotations w0;
                              targets := targets w0;
                              uuid := uuid w0;
                              trace := trace w0 ++ [] |}).
Proof. destruct w0. cbn. rewrite app_nil_r. reflexivity. Qed.

Lemma resolved_run w0 :
  log PromiseResolved w0
  = Some (tt, {| state := state w0;
                 annotations := annotations w0;
                 targets := targets w0;
                 uuid := uuid w0;
                 trace := trace w0 ++ [PromiseResolved] |}).
Proof. reflexivity. Qed.

Lemma finalized_saveSelected w k extra :
  (forall w0, k w0 = Some (tt, {| state := state w0;
                                  annotations := annotations w0;
                                  targets := targets w0;
                                  uuid := uuid w0;
                                  trace := trace w0 ++ extra |})) ->
  wf w ->
  is_Some (selectedAnnotation (state w)) ->
  finalized w (saveSelected k w).
Proof.
  intros Hk Hwf Hs.
  destruct (saveSelected_finalizes w Hwf Hs)
    as (w1 & new & Hrun & Hst & (_ & _ & Htr & _) & Hin).
  rewrite Hrun, Hk. eexists. exists (new ++ extra).
  split; [reflexivity|]. cbn. split; [assumption|].
  split; [by rewrite Htr, app_assoc|].
  apply in_or_app. by left.
Qed.

(** *** Merge precedence *)

Lemma afterCommit_mergedInto method d previous w :
  match modifiedTarget (state w) with
  | Some t => allocatedTarget w t
  | None => True
  end ->
  mergedInto w (afterCommit method d previous w) d (committedRef w d).
Proof.
  intros Ht.
  unfold mergedInto, committedRef, afterCommit, committed,
    allocatedTarget in *.
  cbn.
  destruct (isSelection d) eqn:Hd, (modifiedTarget (state w)) as [t|];
    (split; [lia|]); (split; [assumption || reflexivity|]).
  all: repeat match goal with
         | H : is_Some _ |- _ =>
             let tv := fresh "tv" in
             destruct H as [tv H]; exists tv; split; [assumption|]; rewrite H
         end.
  all: solve_new.
Qed.

(** ** The claims *)

(** C1 (the code departs from the claim).  A draft is selected and
    [saveSelected()] is called: the draft is promoted, the promoted result
    is given to [addOrUpdateAnnotation] and to the created handler, but the
    second argument of the handler is a clone of the draft, not the
    id-override callback; [updateSelected(draft, true)] on the same
    selection does give the callback. *)
Theorem C1_saveSelected_draft_gives_no_id_override :
  let w := Scenario.world (Scenario.open Scenario.d true) in
  (exists w',
     run deepEqual ApiSaveSelected w = Some (tt, w') /\
     trace w' = [SetState (cleared (state w)); LayerDeselect;
                 LayerAddOrUpdateAnnotation 4 (Some Scenario.d);
                 PropsMethod onAnnotationCreated 4 (PreviousClone 5);
                 PromiseResolved] /\
     annotations w' !! 4 = Some (promoted (Generated 0) Scenario.D) /\
     annotations w' !! 5 = Some Scenario.D) /\
  (exists w',
     run deepEqual (ApiUpdateSelected Scenario.d true) w = Some (tt, w') /\
     trace w' = [SetState (cleared (state w)); LayerDeselect;
                 LayerAddOrUpdateAnnotation 4 None;
                 PropsMethod onAnnotationCreated 4 (IdOverrideCallback 4);
                 PromiseResolved] /\
     annotations w' !! 4 = Some (promoted (Generated 0) Scenario.D)).
Proof.
  intros w. split; eexists; (split; [vm_compute; reflexivity|]);
    repeat split.
Qed.

(** C2.  A commit ([saveSelected]) of an existing, non-draft selected
    annotation with no pending [modifiedTarget] and no recorded headless
    baseline is the Cancel transition: the cancellation event fires for the
    annotation, the state is cleared, the promise resolves, and neither the
    created nor the updated handler is called. *)
Theorem C2_saveSelected_unchanged_cancels resolve w a d :
  selectedAnnotation (state w) = Some a ->
  annotations w !! a = Some d ->
  isSelection d = false ->
  modifiedTarget (state w) = None ->
  beforeHeadlessModify (state w) = None ->
  let new := (if editorDisabled (state w) then [] else [LayerDeselect])
             ++ [OnCancelSelected a; SetState (cleared (state w))] in
  saveSelected resolve w = onCancelAnnotation a resolve w /\
  saveSelected resolve w
  = resolve {| state := cleared (state w);
               annotations := annotations w;
               targets := targets w;
               uuid := uuid w;
               trace := trace w ++ new |} /\
  List.filter isCancelled new = [OnCancelSelected a] /\
  List.filter isCreatedOrUpdated new = [].
Proof.
  intros Hs Ha Hd Hm Hb new.
  rewrite (saveSelected_unchanged resolve w a d) by assumption.
  split; [reflexivity|].
  rewrite onCancelAnnotation_run.
  subst new. unfold afterCancel.
  repeat split; destruct (editorDisabled (state w)); reflexivity.
Qed.

Lemma C2_saveSelected_unchanged_cancels_witness :
  let w := Scenario.world (Scenario.open Scenario.a true) in
  run deepEqual ApiSaveSelected w
  = Some (tt, {| state := cleared (state w);
                 annotations := annotations w;
                 targets := targets w;
                 uuid := uuid w;
                 trace := [OnCancelSelected Scenario.a;
                           SetState (cleared (state w));
                           PromiseResolved] |}).
Proof.
  intros w.
  destruct (C2_saveSelected_unchanged_cancels (log PromiseResolved) w
              Scenario.a Scenario.A eq_refl eq_refl eq_refl eq_refl eq_refl)
    as (_ & Hrun & _).
  unfold run. rewrite Hrun. reflexivity.
Defined.

(** C3 (the code departs from the claim).  An existing annotation is
    selected and edited by two [updateSelected(x, false)]: the baseline
    field keeps the original, first write wins.  But the commit
    [updateSelected(y, true)] does not read the field: it gives the
    annotation layer the second, intermediate value as [previous], and the
    updated handler a clone of that.  [saveSelected()] after the same two
    edits gives the original to both. *)
Theorem C3_updateSelected_now_reports_an_intermediate_value :
  let edit text := mkAnnotation (Given "#a") Scenario.T1 [text] false false in
  let w := {| state := Scenario.open 0 true;
              annotations := [Scenario.A; edit "one"; edit "two";
                              edit "three"];
              targets := [];
              uuid := 0;
              trace := [] |} in
  let edited := afterUpdates [1; 2] w in
  (forall k, updateSelectedEach [1; 2] k w = k edited) /\
  selectedAnnotation (state edited) = Some 2 /\
  beforeHeadlessModify (state edited) = Some 0 /\
  (exists w',
     updateSelectedEach [1; 2]
       (updateSelected 3 true (log PromiseResolved)) w = Some (tt, w') /\
     trace w' = trace edited
                ++ [SetState (cleared (state w)); LayerDeselect;
                    LayerAddOrUpdateAnnotation 4 (Some 2);
                    PropsMethod onAnnotationUpdated 4 (PreviousClone 5);
                    PromiseResolved] /\
     annotations w' !! 4 = Some (edit "three") /\
     annotations w' !! 5 = Some (edit "two")) /\
  (exists w',
     updateSelectedEach [1; 2] (saveSelected (log PromiseResolved)) w
     = Some (tt, w') /\
     trace w' = trace edited
                ++ [SetState (cleared (state w)); LayerDeselect;
                    LayerAddOrUpdateAnnotation 4 (Some 0);
                    PropsMethod onAnnotationUpdated 4 (PreviousClone 5);
                    PromiseResolved] /\
     annotations w' !! 4 = Some (edit "two") /\
     annotations w' !! 5 = Some Scenario.A).
Proof.
  intros edit w edited. split; [intros k; reflexivity|].
  split; [reflexivity|]. split; [reflexivity|].
  split; eexists; (split; [vm_compute; reflexivity|]); repeat split.
Qed.

(** C4.  Merge precedence of a commit.  The annotation handed to the
    annotation layer and to the created or updated handler is a new object:
    when [modifiedTarget] is set, its contents are those of the annotation
    being committed with the target replaced by the contents of
    [modifiedTarget]; otherwise they are those of the annotation as it is;
    a draft is promoted with [toAnnotation] first.  This holds of every
    commit, which all go through [onCreateOrUpdateAnnotation], and in
    particular of [saveSelected], where the annotation being committed is
    [this.state.selectedAnnotation]. *)
Theorem C4_commit_merges_modifiedTarget :
  (forall method cb annotation previous w d,
     annotations w !! annotation = Some d ->
     match modifiedTarget (state w) with
     | Some t => allocatedTarget w t
     | None => True
     end ->
     match previous with
     | Some p => allocated w p
     | None => True
     end ->
     exists w' c second,
       onCreateOrUpdateAnnotation method cb annotation previous w = cb w' /\
       trace w' = trace w ++ [SetState (cleared (state w)); LayerDeselect;
                              LayerAddOrUpdateAnnotation c previous;
                              PropsMethod method c second] /\
       mergedInto w w' d c) /\
  (forall resolve w selected d,
     wf w ->
     selectedAnnotation (state w) = Some selected ->
     annotations w !! selected = Some d ->
     isSelection d = true \/
     is_Some (beforeHeadlessModify (state w)) \/
     is_Some (modifiedTarget (state w)) ->
     exists w' c method previous second,
       saveSelected resolve w = resolve w' /\
       trace w' = trace w ++ [SetState (cleared (state w)); LayerDeselect;
                              LayerAddOrUpdateAnnotation c previous;
                              PropsMethod method c second] /\
       mergedInto w w' d c).
Proof.
  split.
  - intros method cb annotation previous w d Ha Ht Hp.
    rewrite (onCreateOrUpdateAnnotation_run method cb annotation previous
               w d) by assumption.
    eexists. eexists. eexists. split; [reflexivity|].
    split; [reflexivity|].
    apply afterCommit_mergedInto; assumption.
  - intros resolve w a d (Hsel & Hbase & Htgt) Hs Ha Hcase.
    assert (Ht : match modifiedTarget (state w) with
                 | Some t => allocatedTarget w t
                 | None => True
                 end)
      by (destruct (modifiedTarget (state w)) as [t|] eqn:E; auto).
    destruct (isSelection d) eqn:Hd.
    + (* a draft *)
      rewrite (saveSelected_draft_run resolve w a d) by assumption.
      eexists. eexists. eexists. eexists. eexists.
      split; [reflexivity|]. split; [reflexivity|].
      unfold mergedInto, committed, allocatedTarget in *. cbn.
      rewrite Hd.
      split; [lia|]. split; [reflexivity|].
      destruct (modifiedTarget (state w)) as [t|].
      * destruct Ht as [tv Ht]. exists tv. split; [assumption|].
        rewrite Ht. solve_new.
      * solve_new.
    + assert (Hrun : exists previous,
                 saveSelected resolve w
                 = resolve (afterCommit onAnnotationUpdated d previous w)).
      { destruct (beforeHeadlessModify (state w)) as [before|] eqn:Hb.
        - exists (Some before).
          rewrite (saveSelected_modified resolve w a d before)
            by assumption.
          apply onCreateOrUpdateAnnotation_run; try assumption.
          apply Hbase; reflexivity.
        - destruct Hcase as [Hc|[[? Hc]|[t Hm]]]; try discriminate.
          exists (Some a).
          rewrite (saveSelected_target_only resolve w a d t)
            by assumption.
          apply onCreateOrUpdateAnnotation_run; try assumption.
          apply Hsel; assumption. }
      destruct Hrun as [previous ->].
      eexists. eexists. eexists. eexists. eexists.
      split; [reflexivity|]. split; [reflexivity|].
      apply afterCommit_mergedInto; assumption.
Qed.

Lemma C4_commit_merges_modifiedTarget_witness :
  let w := Scenario.world (Scenario.moved Scenario.d false) in
  (exists w',
     run deepEqual (EditorCreated Scenario.d None) w = Some (tt, w') /\
     trace w' = [SetState (cleared (state w)); LayerDeselect;
                 LayerAddOrUpdateAnnotation 4 None;
                 PropsMethod onAnnotationCreated 4 (IdOverrideCallback 4)] /\
     annotations w' !! 4
     = Some (withTarget Scenario.T2 (promoted (Generated 0) Scenario.D))) /\
  (exists w',
     saveSelected undefined w = Some (tt, w') /\
     annotations w' !! 4
     = Some (withTarget Scenario.T2 (promoted (Generated 0) Scenario.D))).
Proof.
  intros w. split.
  - destruct (proj1 C4_commit_merges_modifiedTarget onAnnotationCreated
                undefined Scenario.d None w Scenario.D eq_refl
                (ex_intro _ Scenario.T2 eq_refl) I)
      as (w' & c & second & Hrun & _).
    exists w'. unfold run. rewrite Hrun.
    cbv in Hrun. injection Hrun as <-. repeat split.
  - assert (Hwf : wf w).
    { repeat split; intros x H; cbn in H;
        first [discriminate H | injection H as <-; eexists; reflexivity]. }
    destruct (proj2 C4_commit_merges_modifiedTarget undefined w
                Scenario.d Scenario.D Hwf eq_refl eq_refl
                (or_introl eq_refl))
      as (w' & c & method & previous & second & Hrun & _).
    exists w'. rewrite Hrun.
    cbv in Hrun. injection Hrun as <-. split; reflexivity.
Defined.

(** C5 (the code departs from the claim).  Nothing is selected.
    [updateSelected] changes nothing, calls nothing and fires nothing, but
    it never resolves its promise either; [saveSelected] in the same
    situation does resolve. *)
Theorem C5_updateSelected_idle_never_resolves :
  let w := Scenario.world (Scenario.idle true) in
  run deepEqual (ApiUpdateSelected Scenario.a false) w = Some (tt, w) /\
  run deepEqual (ApiUpdateSelected Scenario.a true) w = Some (tt, w) /\
  run deepEqual ApiSaveSelected w
  = Some (tt, {| state := state w;
                 annotations := annotations w;
                 targets := targets w;
                 uuid := uuid w;
                 trace := [PromiseResolved] |}).
Proof. intros w. repeat split. Qed.

(** C6.  In non-headless mode, a select event carrying another annotation
    than the current selection first finalizes the current selection: the
    state is cleared and exactly one cancellation event fires for it,
    neither the created nor the updated handler is called; only then is the
    new selection applied, and after that its selection event fired (unless
    the event asks for silence with [skipEvent]).  No state the component
    goes through has the editor open on the old annotation once the new one
    is selected: the state is cleared in between. *)
Theorem C6_normal_select_cancels_previous isEqual evt w new dnew old dold :
  editorDisabled (state w) = false ->
  annotation evt = Some new ->
  annotations w !! new = Some dnew ->
  selectedAnnotation (state w) = Some old ->
  annotations w !! old = Some dold ->
  isEqual dold dnew = false ->
  let fired :=
    [SetState (cleared (state w)); OnCancelSelected old;
     SetState (selecting evt new (state w))]
    ++ (if skipEvent evt then []
        else [selectionEvent dnew (length (annotations w))]) in
  run isEqual (Select evt) w
  = Some (tt, {| state := selecting evt new (state w);
                 annotations := annotations w
                                ++ (if skipEvent evt then [] else [dnew]);
                 targets := targets w;
                 uuid := uuid w;
                 trace := trace w ++ fired |}) /\
  List.filter isCancelled fired = [OnCancelSelected old] /\
  List.filter isCreatedOrUpdated fired = [] /\
  editorOpen (cleared (state w)) = false.
Proof.
  intros Hh He Hn Hs Ho Hne fired. subst fired.
  split; [|repeat split].
  - unfold run, handleSelect, bind, getState. rewrite Hh.
    rewrite (onNormalSelect_other isEqual evt w new dnew old dold)
      by assumption.
    unfold afterSelect, afterDeselect. cbn. rewrite <- app_assoc.
    reflexivity.
  - unfold selectionEvent.
    destruct (skipEvent evt), (isSelection dnew); reflexivity.
  - unfold selectionEvent.
    destruct (skipEvent evt), (isSelection dnew); reflexivity.
Qed.

Lemma C6_normal_select_cancels_previous_witness :
  let w := Scenario.world (Scenario.open Scenario.a false) in
  let evt := {| annotation := Some Scenario.b; element := Some 8;
                skipEvent := false |} in
  exists w',
    run deepEqual (Select evt) w = Some (tt, w') /\
    selectedAnnotation (state w') = Some Scenario.b /\
    trace w' = [SetState (cleared (state w)); OnCancelSelected Scenario.a;
                SetState (selecting evt Scenario.b (state w));
                OnAnnotationSelected 3].
Proof.
  intros w evt.
  destruct (C6_normal_select_cancels_previous deepEqual evt w
              Scenario.b Scenario.B Scenario.a Scenario.A
              eq_refl eq_refl eq_refl eq_refl eq_refl eq_refl)
    as (Hrun & _).
  eexists. split; [exact Hrun|]. split; reflexivity.
Defined.

(** C7 (the code departs from the claim).  Headless mode, an annotation is
    selected, Escape is pressed: the state is cleared and the annotation
    layer deselects, but no cancellation event is fired, not even when the
    layer answers the deselection with a select event without annotation;
    [cancelSelected()] in the same situation does fire it. *)
Theorem C7_headless_escape_fires_no_cancel :
  let w := Scenario.world (Scenario.open Scenario.a true) in
  let escaped :=
    {| state := cleared (state w);
       annotations := annotations w;
       targets := targets w;
       uuid := uuid w;
       trace := [SetState (cleared (state w)); LayerDeselect] |} in
  run deepEqual (Keyup 27) w = Some (tt, escaped) /\
  (exists w',
     run deepEqual
       (Select {| annotation := None; element := None; skipEvent := false |})
       escaped = Some (tt, w') /\
     List.filter isPublicEvent (trace w') = []) /\
  (exists w',
     run deepEqual ApiCancelSelected w = Some (tt, w') /\
     List.filter isPublicEvent (trace w') = [OnCancelSelected Scenario.a]).
Proof.
  intros w escaped. split; [reflexivity|].
  split; eexists; (split; [vm_compute; reflexivity|reflexivity]).
Qed.

(** C8 (the claim as stated fails).  In non-headless mode a select event
    for the annotation that is already selected fires the selection event
    again; in headless mode it first fires the cancellation event for it. *)
Lemma C8_reselection_fires_events :
  let evt := {| annotation := Some Scenario.a; element := Some 7;
                skipEvent := false |} in
  deepEqual Scenario.A Scenario.A = true /\
  (exists w',
     run deepEqual (Select evt)
       (Scenario.world (Scenario.open Scenario.a false)) = Some (tt, w') /\
     List.filter isSelectionEvent (trace w') = [OnAnnotationSelected 3]) /\
  (exists w',
     run deepEqual (Select evt)
       (Scenario.world (Scenario.open Scenario.a true)) = Some (tt, w') /\
     List.filter isCancelled (trace w') = [OnCancelSelected Scenario.a]).
Proof.
  intros evt. split; [reflexivity|].
  split; eexists; (split; [vm_compute; reflexivity|reflexivity]).
Qed.

(** C8 (amended).  In non-headless mode, a select event whose annotation is
    equal (by [isEqual]) to the annotation currently selected fires no
    cancellation event and calls neither the created nor the updated
    handler; the selection is applied again, and the selection event
    (selection-created for a draft, selection-opened otherwise) is fired
    again with a new clone exactly when the event does not carry
    [skipEvent]. *)
Theorem C8_reselection_normal_mode isEqual evt w a d cur dcur :
  editorDisabled (state w) = false ->
  annotation evt = Some a ->
  annotations w !! a = Some d ->
  selectedAnnotation (state w) = Some cur ->
  annotations w !! cur = Some dcur ->
  isEqual dcur d = true ->
  let fired :=
    [SetState (selecting evt a (state w))]
    ++ (if skipEvent evt then []
        else [selectionEvent d (length (annotations w))]) in
  run isEqual (Select evt) w
  = Some (tt, {| state := selecting evt a (state w);
                 annotations := annotations w
                                ++ (if skipEvent evt then [] else [d]);
                 targets := targets w;
                 uuid := uuid w;
                 trace := trace w ++ fired |}) /\
  List.filter isCancelled fired = [] /\
  List.filter isCreatedOrUpdated fired = [] /\
  List.filter isSelectionEvent fired
  = (if skipEvent evt then []
     else [selectionEvent d (length (annotations w))]).
Proof.
  intros Hh He Ha Hs Hc Heq fired. subst fired.
  split; [|repeat split].
  - unfold run, handleSelect, bind, getState. rewrite Hh.
    rewrite (onNormalSelect_same isEqual evt w a d cur dcur) by assumption.
    reflexivity.
  - unfold selectionEvent.
    destruct (skipEvent evt), (isSelection d); reflexivity.
  - unfold selectionEvent.
    destruct (skipEvent evt), (isSelection d); reflexivity.
  - unfold selectionEvent.
    destruct (skipEvent evt), (isSelection d); reflexivity.
Qed.

Lemma C8_reselection_normal_mode_witness :
  let w := Scenario.world (Scenario.open Scenario.a false) in
  let evt := {| annotation := Some Scenario.a; element := Some 7;
                skipEvent := true |} in
  run deepEqual (Select evt) w
  = Some (tt, {| state := state w;
                 annotations := annotations w;
                 targets := targets w;
                 uuid := uuid w;
                 trace := [SetState (state w)] |}).
Proof.
  intros w evt.
  destruct (C8_reselection_normal_mode deepEqual evt w
              Scenario.a Scenario.A Scenario.a Scenario.A
              eq_refl eq_refl eq_refl eq_refl eq_refl eq_refl)
    as (Hrun & _).
  rewrite Hrun. reflexivity.
Defined.

(** C9 (the code departs from the claim).  The cancellation handler and the
    deleted handler receive the very object they were called about, not a
    clone: with [cancelSelected()] it is the object
    [this.state.selectedAnnotation] still refers to while the handler runs
    (the state is cleared only afterwards), so what the consumer writes into
    it is what the component reads.  The hover handlers, by contrast, get a
    new object. *)
Theorem C9_cancelled_and_deleted_receive_the_original :
  let w := Scenario.world (Scenario.open Scenario.a false) in
  let touch d := {| id := id d; target := target d; body := ["changed"];
                    isSelection := isSelection d; readOnly := readOnly d |} in
  selectedAnnotation (state w) = Some Scenario.a /\
  (exists w',
     run deepEqual ApiCancelSelected w = Some (tt, w') /\
     trace w' = [LayerDeselect; OnCancelSelected Scenario.a;
                 SetState (cleared (state w))] /\
     annotations w' = annotations w) /\
  (exists w',
     run deepEqual (EditorDeleted Scenario.a) w = Some (tt, w') /\
     List.filter isPublicEvent (trace w')
     = [OnAnnotationDeleted Scenario.a] /\
     annotations w' = annotations w) /\
  selectedData (mutate Scenario.a touch w) <> selectedData w /\
  (exists w',
     run deepEqual (MouseEnterAnnotation Scenario.a) w = Some (tt, w') /\
     trace w' = [OnMouseEnterAnnotation 3] /\
     annotations w' !! 3 = annotations w !! Scenario.a /\
     selectedData (mutate 3 touch w') = selectedData w).
Proof.
  intros w touch. split; [reflexivity|].
  split; [eexists; split; [vm_compute; reflexivity|split; reflexivity]|].
  split; [eexists; split; [vm_compute; reflexivity|split; reflexivity]|].
  split; [discriminate|].
  eexists; split; [vm_compute; reflexivity|repeat split].
Qed.

(** C10.  Every finalizing transition (a commit from the editor, from
    [saveSelected] or from [updateSelected(x, true)]; a cancel from the
    editor or from [cancelSelected]; a delete; Escape in headless mode; an
    id override while a selection is open) runs to the end and leaves the
    four selection fields empty together, through the state update of
    [clearState]; and no transition other than the [disableEditor] setter
    changes [editorDisabled]. *)
Theorem C10_finalizing_clears_and_mode_is_framed isEqual :
  (forall act w,
     wf w -> validAction w act -> finalizing w act ->
     finalized w (run isEqual act w)) /\
  (forall act w w',
     isSetDisableEditor act = false ->
     run isEqual act w = Some (tt, w') ->
     editorDisabled (state w') = editorDisabled (state w)).
Proof.
  split.
  - intros act w Hwf Hv Hf.
    pose proof Hwf as (Hsel & Hbase & Htgt).
    assert (Ht : match modifiedTarget (state w) with
                 | Some t => allocatedTarget w t
                 | None => True
                 end)
      by (destruct (modifiedTarget (state w)) as [t|] eqn:E; auto).
    destruct act; cbn in Hv, Hf; try contradiction; cbn [run].
    + (* Escape *)
      subst. rewrite headlessCancel_escape.
      eexists. eexists. split; [reflexivity|]. cbn.
      split; [reflexivity|]. split; [reflexivity|]. left. reflexivity.
    + (* the editor creates *)
      destruct Hv as [[d Ha] Hp].
      rewrite (onCreateOrUpdateAnnotation_run _ _ _ _ _ d)
        by (try assumption; destruct previous; auto).
      eapply finalized_commit, undefined_run.
    + (* the editor updates *)
      destruct Hv as [[d Ha] Hp].
      rewrite (onCreateOrUpdateAnnotation_run _ _ _ _ _ d)
        by (try assumption; destruct previous; auto).
      eapply finalized_commit, undefined_run.
    + (* the editor deletes *)
      unfold onDeleteAnnotation. unfold_m. cbn.
      eexists. eexists. split; [reflexivity|]. cbn.
      split; [reflexivity|]. rewrite <- !app_assoc.
      split; [reflexivity|]. left. reflexivity.
    + (* the editor cancels *)
      rewrite onCancelAnnotation_run.
      eapply finalized_cancel, undefined_run.
    + (* id override *)
      destruct Hv as [d Ha]. destruct Hf as [cur Hs].
      unfold overrideAnnotationId. unfold_m. rewrite Ha, Hs. cbn.
      eexists. eexists. split; [reflexivity|]. cbn.
      split; [reflexivity|]. rewrite <- !app_assoc.
      split; [reflexivity|]. left. reflexivity.
    + (* cancelSelected *)
      destruct Hf as [cur Hs].
      unfold cancelSelected, bind, getState. rewrite Hs.
      rewrite onCancelAnnotation_run.
      eapply finalized_cancel, undefined_run.
    + (* saveSelected *)
      eapply finalized_saveSelected; [apply resolved_run|assumption..].
    + (* updateSelected, saving immediately *)
      destruct Hf as [-> [cur Hs]]. destruct Hv as [d Ha].
      destruct (Hsel cur Hs) as [dcur Hc].
      rewrite (updateSelected_now _ _ _ cur dcur) by assumption.
      rewrite (onCreateOrUpdateAnnotation_run _ _ _ _ _ d)
        by (try assumption; destruct (isSelection dcur); auto).
      eapply finalized_commit, resolved_run.
  - intros act w w' Hact Hrun.
    exact (keepsMode_run isEqual act Hact w tt w' Hrun).
Qed.

Lemma C10_finalizing_clears_and_mode_is_framed_witness :
  let w := Scenario.world (Scenario.moved Scenario.a true) in
  let evt := {| annotation := Some Scenario.b; element := Some 8;
                skipEvent := false |} in
  finalized w (run deepEqual ApiSaveSelected w) /\
  exists w',
    run deepEqual (Select evt) w = Some (tt, w') /\
    selectedAnnotation (state w') = Some Scenario.b /\
    editorDisabled (state w') = editorDisabled (state w).
Proof.
  intros w evt. split.
  - apply (proj1 (C10_finalizing_clears_and_mode_is_framed deepEqual)).
    + repeat split; intros x H; cbn in H;
        first [discriminate H | injection H as <-; eexists; reflexivity].
    + exact I.
    + eexists; reflexivity.
  - eexists. split; [vm_compute; reflexivity|]. split; [reflexivity|].
    apply (proj2 (C10_finalizing_clears_and_mode_is_framed deepEqual)
             (Select evt) w _ eq_refl).
    vm_compute; reflexivity.
Defined.

(** ** Further properties *)

(** *** What a computation leaves alone *)

Section Frames.

Local Set Default Proof Using "Type*".

Context (S : State -> State -> Prop) `{!PreOrder S} (P : Effect -> Prop).

Lemma frames_same {A} (m : M A) :
  (forall w x w', m w = Some (x, w') ->
                  state w' = state w /\ trace w' = trace w) ->
  frames S P m.
Proof.
  intros Hm w x w' H. destruct (Hm w x w' H) as [-> ->].
  split; [reflexivity|]. exists []. by rewrite app_nil_r.
Qed.

Lemma frames_ret {A} (x : A) : frames S P (ret x).
Proof. apply frames_same. intros w y w' H. by injection H as _ <-. Qed.

Lemma frames_bind {A B} (m : M A) (k : A -> M B) :
  frames S P m -> (forall x, frames S P (k x)) -> frames S P (bind m k).
Proof.
  intros Hm Hk w y w' H. unfold bind in H.
  destruct (m w) as [[x w1]|] eqn:E; [|discriminate].
  destruct (Hm w x w1 E) as (Hs1 & new1 & Ht1 & Hp1).
  destruct (Hk x w1 y w' H) as (Hs2 & new2 & Ht2 & Hp2).
  split; [by etrans|]. exists (new1 ++ new2).
  split; [by rewrite Ht2, Ht1, app_assoc|]. by apply Forall_app.
Qed.

Lemma frames_getState : frames S P getState.
Proof. apply frames_same. intros w y w' H. by injection H as _ <-. Qed.

Lemma frames_readAnnotation a : frames S P (readAnnotation a).
Proof.
  apply frames_same. intros w y w' H. unfold readAnnotation in H.
  destruct (annotations w !! a); [|discriminate]. by injection H as _ <-.
Qed.

Lemma frames_readTarget t : frames S P (readTarget t).
Proof.
  apply frames_same. intros w y w' H. unfold readTarget in H.
  destruct (targets w !! t); [|discriminate]. by injection H as _ <-.
Qed.

Lemma frames_newAnnotation d : frames S P (newAnnotation d).
Proof. apply frames_same. intros w y w' H. by injection H as _ <-. Qed.

Lemma frames_newTarget d : frames S P (newTarget d).
Proof. apply frames_same. intros w y w' H. by injection H as _ <-. Qed.

Lemma frames_freshId : frames S P freshId.
Proof. apply frames_same. intros w y w' H. by injection H as _ <-. Qed.

Lemma frames_log e : P e -> frames S P (log e).
Proof.
  intros He w y w' H. injection H as _ <-. cbn.
  split; [reflexivity|]. exists [e]. split; [reflexivity|]. by constructor.
Qed.

Lemma frames_setState partial callback :
  (forall s, S s (partial s)) ->
  (forall s, P (SetState (partial s))) ->
  frames S P callback ->
  frames S P (setState partial callback).
Proof.
  intros Hs Hp Hc w y w' H. unfold setState in H.
  destruct (Hc _ y w' H) as (Hs' & new & Ht & Hn). cbn in Hs', Ht.
  split; [etrans; [apply Hs|exact Hs']|].
  exists (SetState (partial (state w)) :: new).
  split; [by rewrite Ht, <- app_assoc|]. constructor; [apply Hp|assumption].
Qed.

Lemma frames_clone a t : frames S P (clone a t).
Proof.
  unfold clone. apply frames_bind; [apply frames_readAnnotation|].
  intros d. destruct t; [|apply frames_newAnnotation].
  apply frames_bind; [apply frames_readTarget|].
  intros tv. apply frames_newAnnotation.
Qed.

Lemma frames_toAnnotation a : frames S P (toAnnotation a).
Proof.
  unfold toAnnotation. apply frames_bind; [apply frames_readAnnotation|].
  intros d. apply frames_bind; [apply frames_freshId|].
  intros i. apply frames_newAnnotation.
Qed.

Lemma frames_jsonClone t : frames S P (jsonClone t).
Proof.
  unfold jsonClone. apply frames_bind; [apply frames_readTarget|].
  intros d. apply frames_newTarget.
Qed.

Lemma frames_mapM {A B} (f : A -> M B) (l : list A) :
  (forall x, frames S P (f x)) -> frames S P (mapM f l).
Proof.
  intros Hf. induction l as [|x l IH]; cbn [mapM]; [apply frames_ret|].
  apply frames_bind; [apply Hf|]. intros y.
  apply frames_bind; [apply IH|]. intros ys. apply frames_ret.
Qed.

End Frames.

Create HintDb frame discriminated.

#[local] Hint Resolve frames_ret frames_getState frames_readAnnotation
  frames_readTarget frames_newAnnotation frames_newTarget frames_freshId
  frames_clone frames_toAnnotation frames_jsonClone : frame.

(** Go through a method, one statement after the other; what is left are
    the effects it logs and the state updates it makes. *)
Ltac framing :=
  repeat (intros;
    lazymatch goal with
    | |- frames _ _ (bind _ _) => apply frames_bind; [tc_solve|..]
    | |- frames _ _ (mapM _ _) => apply frames_mapM; [tc_solve|]
    | |- frames _ _ (setState _ _) =>
        apply frames_setState; [tc_solve|try done..|]
    | |- frames _ _ (log _) => apply frames_log; [tc_solve|try done]
    | |- frames _ _ (match ?x with _ => _ end) => destruct x
    | |- frames _ _ _ => solve [auto with frame typeclass_instances]
    end).

#[local] Instance anyState_preorder : PreOrder anyState.
Proof. split; [intros s|intros s1 s2 s3 _ _]; exact I. Qed.

(** *** Passive operations *)

Lemma frames_passive isEqual act :
  passive act = true ->
  frames eq (fun e => isPassiveEffect e = true) (run isEqual act).
Proof.
  intros H. destruct act; try discriminate H; cbn [run];
    unfold handleMouseEnter, handleMouseLeave, addAnnotation,
      getAnnotations, getSelected, removeAnnotation, setAnnotations;
    framing.
Qed.

(** X7.  The hover handlers and the API operations [addAnnotation],
    [getAnnotations], [getSelected], [removeAnnotation] and
    [setAnnotations] leave [this.state] exactly as it is: they only call
    the annotation layer (add or update, get, remove, init) and, for the
    hover handlers, fire the hover events.  In particular removing the
    selected annotation, or replacing all annotations, through the API does
    not by itself close the selection. *)
Theorem passive_operations_keep_the_state isEqual act w w' :
  passive act = true ->
  run isEqual act w = Some (tt, w') ->
  state w' = state w /\
  exists new, trace w' = trace w ++ new /\
              forallb isPassiveEffect new = true.
Proof.
  intros Hp Hrun.
  destruct (frames_passive isEqual act Hp w tt w' Hrun)
    as (Hs & new & Ht & Hn).
  split; [by symmetry|]. exists new. split; [assumption|].
  apply forallb_forall. intros e He. rewrite Forall_forall in Hn.
  apply Hn. by apply list_elem_of_In.
Qed.

Lemma passive_operations_keep_the_state_witness :
  let w := Scenario.world (Scenario.moved Scenario.a false) in
  exists w',
    run deepEqual (ApiRemoveAnnotation (AnAnnotation Scenario.a)) w
    = Some (tt, w') /\
    state w' = state w /\
    selectedData w' = Some Scenario.A.
Proof.
  intros w. eexists. split; [vm_compute; reflexivity|].
  split; [|reflexivity].
  apply (passive_operations_keep_the_state deepEqual
           (ApiRemoveAnnotation (AnAnnotation Scenario.a)) w _ eq_refl).
  vm_compute; reflexivity.
Defined.

(** *** The keyup listener *)






(** *** A select event in headless mode *)




(** *** Moving a shape, then saving *)

Lemma handleUpdateTarget_run el t w tv :
  targets w !! t = Some tv ->
  handleUpdateTarget el t w
  = Some (tt, let s := {| selectedAnnotation := selectedAnnotation (state w);
                          selectedDOMElement := el;
                          modifiedTarget := Some t;
                          editorDisabled := editorDisabled (state w);
                          beforeHeadlessModify :=
                            beforeHeadlessModify (state w) |} in
              {| state := s;
                 annotations := annotations w;
                 targets := targets w ++ [tv];
                 uuid := uuid w;
                 trace := trace w ++ [SetState s;
                                      OnSelectionTargetChanged
                                        (length (targets w))] |}).
Proof.
  intros Ht. unfold handleUpdateTarget. unfold_m. cbn. rewrite Ht. cbn.
  by rewrite <- app_assoc.
Qed.

(** X4.  An [updateTarget] event followed by [saveSelected()], on an
    existing annotation that was not edited otherwise.  The target-changed
    handler receives a new target object holding the reported target;
    whatever target was pending before is overwritten; the commit is an
    update whose annotation is a new object holding the selected annotation
    with the reported target, and whose [previous] for the handler is a
    clone of the annotation as it was, the annotation layer being given the
    selected annotation itself as [previous]. *)
Theorem updateTarget_then_saveSelected isEqual w a d el t tv :
  selectedAnnotation (state w) = Some a ->
  annotations w !! a = Some d ->
  isSelection d = false ->
  beforeHeadlessModify (state w) = None ->
  targets w !! t = Some tv ->
  let n := length (annotations w) in
  let m := length (targets w) in
  exists w' s,
    runAll isEqual [UpdateTarget el t; ApiSaveSelected] w = Some (tt, w') /\
    trace w' = trace w ++
      [SetState s; OnSelectionTargetChanged m;
       SetState (cleared (state w)); LayerDeselect;
       LayerAddOrUpdateAnnotation n (Some a);
       PropsMethod onAnnotationUpdated n (PreviousClone (S n));
       PromiseResolved] /\
    selectedAnnotation s = Some a /\ modifiedTarget s = Some t /\
    state w' = cleared (state w) /\
    targets w' !! m = Some tv /\
    annotations w' !! n = Some (withTarget tv d) /\
    annotations w' !! S n = Some d.
Proof.
  intros Hs Ha Hd Hb Ht n m.
  pose proof (handleUpdateTarget_run el t w tv Ht) as H1. cbn zeta in H1.
  match type of H1 with _ = Some (_, ?x) => set (w1 := x) in * end.
  assert (Ht1 : targets w1 !! t = Some tv)
    by (by apply lookup_app_l_Some).
  assert (H2 : saveSelected (log PromiseResolved) w1
               = log PromiseResolved
                   (afterCommit onAnnotationUpdated d (Some a) w1)).
  { rewrite (saveSelected_target_only _ w1 a d t) by done.
    apply onCreateOrUpdateAnnotation_run; cbn; [done|by exists tv|].
    by exists d. }
  eexists. exists (state w1). split.
  { cbn [runAll run]. rewrite (bind_run _ _ w _ _ H1).
    unfold bind. rewrite H2. reflexivity. }
  unfold afterCommit, committed, committedRef. rewrite Hd.
  cbn [trace log state annotations targets w1 modifiedTarget
       selectedAnnotation].
  cbn [targets w1] in Ht1. rewrite Ha, Ht1. cbn [option_list app].
  split; [by rewrite <- !app_assoc|].
  split; [assumption|]. split; [reflexivity|]. split; [reflexivity|].
  split; [apply lookup_new_0|]. split; [apply lookup_new_0|].
  apply lookup_new_1.
Qed.

Lemma updateTarget_then_saveSelected_witness :
  let w := Scenario.world (Scenario.open Scenario.a true) in
  exists w',
    runAll deepEqual [UpdateTarget (Some 7) 0; ApiSaveSelected] w
    = Some (tt, w') /\
    List.filter isPublicEvent (trace w')
    = [OnSelectionTargetChanged 1;
       PropsMethod onAnnotationUpdated 3 (PreviousClone 4)] /\
    annotations w' !! 3 = Some (withTarget Scenario.T2 Scenario.A) /\
    annotations w' !! 4 = Some Scenario.A.
Proof.
  intros w.
  destruct (updateTarget_then_saveSelected deepEqual w Scenario.a
              Scenario.A (Some 7) 0 Scenario.T2
              eq_refl eq_refl eq_refl eq_refl eq_refl)
    as (w' & s & Hrun & _).
  exists w'. split; [exact Hrun|].
  vm_compute in Hrun. injection Hrun as <-. repeat split.
Defined.

(** *** Lists of annotations through the API *)

Lemma mapM_clone_spec l : forall w ds,
  Forall2 (fun a d => annotations w !! a = Some d) l ds ->
  mapM (fun a => clone a None) l w
  = Some (seq (length (annotations w)) (length l),
          {| state := state w;
             annotations := annotations w ++ ds;
             targets := targets w;
             uuid := uuid w;
             trace := trace w |}).
Proof.
  induction l as [|a l IH]; intros w ds Hl.
  - inversion Hl; subst. destruct w. cbn. by rewrite app_nil_r.
  - inversion Hl as [|? d ? ds' Hd Hl']; subst.
    set (w1 := {| state := state w; annotations := annotations w ++ [d];
                  targets := targets w; uuid := uuid w;
                  trace := trace w |}).
    assert (Hl1 : Forall2 (fun a d => annotations w1 !! a = Some d) l ds').
    { eapply Forall2_impl; [exact Hl'|]. intros x y Hxy.
      cbn. by apply lookup_app_l_Some. }
    cbn [mapM].
    rewrite (bind_run _ _ w _ w1) by (by apply clone_run).
    rewrite (bind_run _ _ w1 _ _ (IH w1 ds' Hl1)). cbn.
    rewrite length_app, Nat.add_comm, <- app_assoc. reflexivity.
Qed.

(** X8.  [getAnnotations] and [setAnnotations] clone element by element:
    the list handed to the caller, or to the annotation layer, has one
    object per object of the list it comes from, in the same order, each
    one a new object with the contents of its original, no two of them the
    same; the store is extended, nothing in it is overwritten, and
    [this.state] is left as it is. *)
Theorem annotation_lists_are_cloned l w :
  Forall (allocated w) l ->
  exists cs w',
    getAnnotations l w = Some (cs, w') /\
    setAnnotations l w
    = Some (tt, {| state := state w';
                   annotations := annotations w';
                   targets := targets w';
                   uuid := uuid w';
                   trace := trace w ++ [LayerInit cs] |}) /\
    state w' = state w /\
    trace w' = trace w ++ [LayerGetAnnotations] /\
    annotations w `prefix_of` annotations w' /\
    length cs = length l /\
    NoDup cs /\
    forall i a, l !! i = Some a ->
      exists c, cs !! i = Some c /\
                length (annotations w) <= c /\
                is_Some (annotations w !! a) /\
                annotations w' !! c = annotations w !! a.
Proof.
  intros Hl.
  assert (Hds : exists ds,
             Forall2 (fun a d => annotations w !! a = Some d) l ds).
  { induction Hl as [|a l [d Hd] _ [ds IH]]; [by exists []|].
    exists (d :: ds). by constructor. }
  destruct Hds as [ds Hds].
  exists (seq (length (annotations w)) (length l)). eexists.
  split.
  { unfold getAnnotations.
    rewrite (bind_run _ _ w tt _ eq_refl).
    match goal with
    | |- mapM _ _ ?w0 = _ => exact (mapM_clone_spec l w0 ds Hds)
    end. }
  split.
  { unfold setAnnotations.
    rewrite (bind_run _ _ w _ _ (mapM_clone_spec l w ds Hds)).
    reflexivity. }
  cbn. split; [reflexivity|]. split; [reflexivity|].
  split; [by eexists|]. split; [apply length_seq|].
  split; [apply NoDup_seq|].
  intros i a Hi.
  destruct (Forall2_lookup_l _ _ _ _ _ Hds Hi) as (d & Hd & Had).
  exists (length (annotations w) + i).
  split; [apply lookup_seq; split; [reflexivity|by eapply lookup_lt_Some]|].
  split; [lia|]. split; [by exists d|].
  rewrite Had, lookup_app_r by lia.
  by replace (length (annotations w) + i - length (annotations w)) with i
    by lia.
Qed.

Lemma annotation_lists_are_cloned_witness :
  let w := Scenario.world (Scenario.open Scenario.a false) in
  exists w',
    getAnnotations [Scenario.b; Scenario.a; Scenario.b] w
    = Some ([3; 4; 5], w') /\
    annotations w'
    = annotations w ++ [Scenario.B; Scenario.A; Scenario.B].
Proof.
  intros w.
  destruct (annotation_lists_are_cloned
              [Scenario.b; Scenario.a; Scenario.b] w)
    as (cs & w' & Hrun & _).
  { repeat constructor; eexists; reflexivity. }
  exists w'. vm_compute in Hrun. injection Hrun as <- <-.
  split; reflexivity.
Defined.

(** *** Finalizing twice *)

Lemma cancelSelected_idle w :
  selectedAnnotation (state w) = None -> cancelSelected w = Some (tt, w).
Proof.
  intros Hs. unfold cancelSelected, bind, getState. by rewrite Hs.
Qed.

(** X10.  A selection is finalized once.  When the promise of
    [saveSelected()] has resolved, nothing is selected, and what is called
    then finds nothing to finalize: another [saveSelected()] only resolves
    its promise, [cancelSelected()] does nothing, and [updateSelected]
    does nothing and leaves its promise pending.  None of them fires an
    event, calls the annotation layer or updates the state. *)
Theorem second_finalization_is_void w :
  wf w ->
  exists w1,
    (forall k, saveSelected k w = k w1) /\
    selectedAnnotation (state w1) = None /\
    (forall resolve, saveSelected resolve w1 = resolve w1) /\
    cancelSelected w1 = Some (tt, w1) /\
    (forall x saveImmediately resolve,
       updateSelected x saveImmediately resolve w1 = Some (tt, w1)).
Proof.
  intros Hwf.
  assert (H : exists w1, (forall k, saveSelected k w = k w1) /\
                         selectedAnnotation (state w1) = None).
  { destruct (selectedAnnotation (state w)) as [cur|] eqn:Hs.
    - destruct (saveSelected_finalizes w Hwf) as (w1 & new & Hrun & Hst & _);
        [rewrite Hs; eauto|].
      exists w1. split; [exact Hrun|by rewrite Hst].
    - exists w. split; [|assumption].
      intros k. by apply saveSelected_idle. }
  destruct H as (w1 & Hrun & Hs1). exists w1.
  split; [exact Hrun|]. split; [exact Hs1|].
  split; [intros resolve; by apply saveSelected_idle|].
  split; [by apply cancelSelected_idle|].
  intros x saveImmediately resolve. by apply updateSelected_idle.
Qed.

Lemma second_finalization_is_void_witness :
  let w := Scenario.world (Scenario.moved Scenario.a true) in
  exists w',
    saveSelected (log PromiseResolved) w = Some (tt, w') /\
    saveSelected (saveSelected (log PromiseResolved)) w = Some (tt, w') /\
    saveSelected (cancelSelected ;; log PromiseResolved) w = Some (tt, w') /\
    List.filter isPublicEvent (trace w')
    = [PropsMethod onAnnotationUpdated 3 (PreviousClone 4)].
Proof.
  intros w.
  assert (Hwf : wf w).
  { repeat split; intros x H; cbn in H;
      first [discriminate H | injection H as <-; eexists; reflexivity]. }
  destruct (second_finalization_is_void w Hwf)
    as (w1 & Hrun & _ & Hsave & Hcancel & _).
  pose proof (Hrun (ret tt)) as E. vm_compute in E. injection E as <-.
  eexists. rewrite !Hrun, Hsave.
  rewrite (bind_run _ _ _ tt _ Hcancel).
  split; [reflexivity|]. split; [reflexivity|]. split; reflexivity.
Defined.

(** *** Saving immediately *)

(** X11.  [updateSelected(x, true)] on an existing annotation commits [x]
    as an update whose [previous] is the annotation selected at that
    moment, whatever [beforeHeadlessModify] holds: after non-immediate
    updates it reports the last intermediate value, not the original that
    [saveSelected] would report, and the recorded baseline is dropped. *)
Theorem updateSelected_now_reports_the_selection resolve w x dx cur dcur :
  selectedAnnotation (state w) = Some cur ->
  annotations w !! cur = Some dcur ->
  isSelection dcur = false ->
  annotations w !! x = Some dx ->
  match modifiedTarget (state w) with
  | Some t => allocatedTarget w t
  | None => True
  end ->
  exists w' c p,
    updateSelected x true resolve w = resolve w' /\
    trace w' = trace w ++ [SetState (cleared (state w)); LayerDeselect;
                           LayerAddOrUpdateAnnotation c (Some cur);
                           PropsMethod onAnnotationUpdated c
                             (PreviousClone p)] /\
    state w' = cleared (state w) /\
    mergedInto w w' dx c /\
    length (annotations w) <= p /\ p <> c /\
    annotations w' !! p = Some dcur.
Proof.
  intros Hs Hc Hd Hx Ht.
  rewrite (updateSelected_now x resolve w cur dcur) by assumption.
  rewrite Hd.
  rewrite (onCreateOrUpdateAnnotation_run _ _ _ _ _ dx)
    by (try assumption; by exists dcur).
  eexists. eexists. eexists. split; [reflexivity|].
  split; [reflexivity|]. split; [reflexivity|].
  split; [by apply afterCommit_mergedInto|].
  unfold afterCommit, committedRef. cbn. rewrite Hc.
  destruct (isSelection dx); (split; [lia|]); (split; [lia|]); solve_new.
Qed.

Lemma updateSelected_now_reports_the_selection_witness :
  let w := Scenario.world (Scenario.open Scenario.a true) in
  exists w',
    updateSelected Scenario.b false
      (updateSelected Scenario.b true undefined) w = Some (tt, w') /\
    List.filter isLayerCall (trace w')
    = [LayerDeselect; LayerAddOrUpdateAnnotation 3 (Some Scenario.b)] /\
    List.filter isPublicEvent (trace w')
    = [PropsMethod onAnnotationUpdated 3 (PreviousClone 4)] /\
    annotations w' !! 4 = Some Scenario.B.
Proof.
  intros w.
  assert (H1 : updateSelected Scenario.b false
                 (updateSelected Scenario.b true undefined) w
               = updateSelected Scenario.b true undefined
                   (afterUpdate Scenario.b w))
    by reflexivity.
  destruct (updateSelected_now_reports_the_selection undefined
              (afterUpdate Scenario.b w) Scenario.b Scenario.B
              Scenario.b Scenario.B eq_refl eq_refl eq_refl eq_refl I)
    as (w' & c & p & Hrun & _).
  rewrite H1, Hrun. exists w'. split; [reflexivity|].
  vm_compute in Hrun. injection Hrun as <-. repeat split.
Defined.

(** *** Closing the selection without a word *)

(** X9.  While an annotation is selected, the editor's delete action, a
    [selectAnnotation] that the annotation layer cannot answer and an id
    override all close the selection: the state is cleared, a pending
    [modifiedTarget] and a recorded baseline with it, and the consumer gets
    neither a cancellation nor a created or updated event, nor a selection
    event. *)
Theorem discarding_fires_no_cancellation isEqual act w :
  discarding act = true ->
  validAction w act ->
  is_Some (selectedAnnotation (state w)) ->
  exists w' new,
    run isEqual act w = Some (tt, w') /\
    state w' = cleared (state w) /\
    annotations w' = annotations w /\
    trace w' = trace w ++ new /\
    List.filter isFinalization new = [] /\
    List.filter isSelectionEvent new = [].
Proof.
  intros Hd Hv [cur Hs].
  destruct act as [| | | | | | |a| |a forcedId| | | | | | | |[c|]| |];
    try discriminate Hd; cbn [run]; cbn in Hv.
  - unfold onDeleteAnnotation. unfold_m. cbn.
    eexists. eexists. split; [reflexivity|]. cbn.
    split; [reflexivity|]. split; [reflexivity|].
    rewrite <- !app_assoc. split; [reflexivity|]. split; reflexivity.
  - destruct Hv as [d Ha].
    rewrite (overrideAnnotationId_run a forcedId w d Ha), Hs.
    eexists. eexists. split; [reflexivity|]. cbn.
    split; [reflexivity|]. split; [reflexivity|].
    split; [reflexivity|]. split; reflexivity.
  - unfold selectAnnotation. unfold_m. cbn.
    eexists. eexists. split; [reflexivity|]. cbn.
    split; [reflexivity|]. split; [reflexivity|].
    rewrite <- !app_assoc. split; [reflexivity|]. split; reflexivity.
Qed.

Lemma discarding_fires_no_cancellation_witness :
  let w := Scenario.world (Scenario.moved Scenario.a false) in
  exists w',
    run deepEqual (OverrideId Scenario.b (Given "#forced")) w
    = Some (tt, w') /\
    state w' = cleared (state w) /\
    trace w' = [SetState (cleared (state w));
                LayerOverrideId (Given "#b") (Given "#forced")].
Proof.
  intros w.
  destruct (discarding_fires_no_cancellation deepEqual
              (OverrideId Scenario.b (Given "#forced")) w eq_refl
              (ex_intro _ Scenario.B eq_refl)
              (ex_intro _ Scenario.a eq_refl))
    as (w' & new & Hrun & _).
  exists w'. split; [exact Hrun|].
  vm_compute in Hrun. injection Hrun as <-. split; reflexivity.
Defined.

(** *** The editor in headless mode *)

Lemma runAll_keepsMode isEqual acts :
  forallb (fun act => negb (isSetDisableEditor act)) acts = true ->
  keepsMode (runAll isEqual acts).
Proof.
  induction acts as [|act acts IH]; cbn [runAll forallb]; intros H.
  - apply keepsMode_ret.
  - apply andb_prop in H as [Ha Hacts].
    apply keepsMode_bind; [|intros _; by apply IH].
    apply keepsMode_run. by destruct (isSetDisableEditor act).
Qed.

(** X12.  A component in headless mode never shows the editor: whatever
    happens to it, as long as the [disableEditor] setter is not used,
    [render] returns nothing to show, and changes nothing. *)
Theorem headless_never_renders_the_editor
    isEqual configReadOnly acts w w' r w'' :
  editorDisabled (state w) = true ->
  forallb (fun act => negb (isSetDisableEditor act)) acts = true ->
  runAll isEqual acts w = Some (tt, w') ->
  render configReadOnly w' = Some (r, w'') ->
  r = None /\ w'' = w'.
Proof.
  intros Hh Hacts Hrun Hr.
  pose proof (runAll_keepsMode isEqual acts Hacts w tt w' Hrun) as Hm.
  rewrite Hh in Hm. unfold render in Hr. unfold_m.
  destruct (selectedAnnotation (state w')) as [a|];
    [|by injection Hr as <- <-].
  destruct (annotations w' !! a); [|discriminate].
  rewrite Hm in Hr. by injection Hr as <- <-.
Qed.

Lemma headless_never_renders_the_editor_witness :
  let w := Scenario.world (Scenario.idle true) in
  let acts :=
    [Select {| annotation := Some Scenario.a; element := Some 7;
               skipEvent := false |};
     UpdateTarget (Some 7) 0] in
  exists w',
    runAll deepEqual acts w = Some (tt, w') /\
    selectedAnnotation (state w') = Some Scenario.a /\
    render false w' = Some (None, w').
Proof.
  intros w acts. eexists. split; [vm_compute; reflexivity|].
  split; [reflexivity|].
  match goal with
  | |- render false ?w1 = _ =>
      destruct (render false w1) as [[r w2]|] eqn:E; [|discriminate E];
      destruct (headless_never_renders_the_editor deepEqual false acts w
                  w1 r w2 eq_refl eq_refl eq_refl E) as [-> ->]
  end.
  reflexivity.
Defined.

(** What [render] gives the editor when it shows it. *)
Lemma render_open configReadOnly w a d :
  selectedAnnotation (state w) = Some a ->
  annotations w !! a = Some d ->
  editorDisabled (state w) = false ->
  render configReadOnly w
  = Some (Some {| editorAnnotation := a;
                  editorModifiedTarget := modifiedTarget (state w);
                  editorSelectedElement := selectedDOMElement (state w);
                  editorReadOnly := configReadOnly || readOnly d |}, w).
Proof.
  intros Hs Ha Hh. unfold render. unfold_m. by rewrite Hs, Ha, Hh.
Qed.

(** *** No event is fired twice *)

Lemma firesAtMost_app k1 k2 new1 new2 :
  List.filter isFinalization new1 = [] \/
  List.filter isFinalization new2 = [] ->
  List.filter isSelectionEvent new1 = [] \/
  List.filter isSelectionEvent new2 = [] ->
  firesAtMost k1 new1 -> firesAtMost k2 new2 ->
  firesAtMost (k1 + k2) (new1 ++ new2).
Proof.
  intros Hf Hs (Hf1 & Hs1 & Hp1) (Hf2 & Hs2 & Hp2).
  unfold firesAtMost. rewrite !List.filter_app, !length_app.
  repeat split; [destruct Hf as [-> | ->]|destruct Hs as [-> | ->]|];
    cbn; lia.
Qed.

Lemma firesAtMost_le k k' new :
  k <= k' -> firesAtMost k new -> firesAtMost k' new.
Proof. intros Hk (? & ? & ?). repeat split; [assumption..|lia]. Qed.

(** The events of a world described in full. *)
Ltac count_events :=
  unfold firesAtMost, selectionEvent; cbn;
  repeat match goal with
         | |- context [skipEvent ?e] => destruct (skipEvent e); cbn
         | |- context [isSelection ?d] => destruct (isSelection d); cbn
         | |- context [editorDisabled ?s] => destruct (editorDisabled s); cbn
         | |- context [match ?x with Some _ => _ | None => _ end] =>
             is_var x; destruct x; cbn
         end;
  repeat split; cbn; lia.

Lemma onNormalSelect_fires isEqual evt w :
  wf w ->
  (forall a, annotation evt = Some a -> allocated w a) ->
  exists w' new,
    onNormalSelect isEqual evt w = Some (tt, w') /\
    trace w' = trace w ++ new /\
    firesAtMost 2 new /\
    (selectedAnnotation (state w) = None ->
     firesAtMost 1 new /\ List.filter isFinalization new = []).
Proof.
  intros Hwf Hv. pose proof Hwf as (Hsel & _).
  destruct (annotation evt) as [a|] eqn:He,
    (selectedAnnotation (state w)) as [cur|] eqn:Hs.
  - destruct (Hv a eq_refl) as [d Ha]. destruct (Hsel cur eq_refl) as [dc Hc].
    destruct (isEqual dc d) eqn:Heq.
    + rewrite (onNormalSelect_same isEqual evt w a d cur dc) by assumption.
      eexists. eexists. split; [reflexivity|]. split; [reflexivity|].
      split; [count_events|discriminate].
    + rewrite (onNormalSelect_other isEqual evt w a d cur dc) by assumption.
      eexists. eexists. split; [reflexivity|]. cbn.
      rewrite <- app_assoc. split; [reflexivity|].
      split; [count_events|discriminate].
  - destruct (Hv a eq_refl) as [d Ha].
    rewrite (onNormalSelect_first isEqual evt w a d) by assumption.
    eexists. eexists. split; [reflexivity|]. split; [reflexivity|].
    split; [count_events|]. intros _.
    split; [count_events|].
    unfold selectionEvent.
    by destruct (skipEvent evt), (isSelection d).
  - rewrite (onNormalSelect_none isEqual evt w cur) by assumption.
    eexists. eexists. split; [reflexivity|]. split; [reflexivity|].
    split; [count_events|discriminate].
  - unfold onNormalSelect. rewrite He. unfold_m. rewrite Hs. cbn.
    eexists. eexists. split; [reflexivity|]. split; [reflexivity|].
    split; [count_events|]. intros _. split; [count_events|reflexivity].
Qed.

Lemma saveSelected_fires w :
  wf w ->
  is_Some (selectedAnnotation (state w)) ->
  exists w1 fin,
    (forall k, saveSelected k w = k w1) /\
    state w1 = cleared (state w) /\
    grows w w1 fin /\
    firesAtMost 1 fin /\
    List.filter isSelectionEvent fin = [].
Proof.
  intros (Hsel & Hbase & Htgt) [a Hs].
  destruct (Hsel a Hs) as [d Ha].
  assert (Ht : match modifiedTarget (state w) with
               | Some t => allocatedTarget w t
               | None => True
               end)
    by (destruct (modifiedTarget (state w)) as [t|] eqn:E; auto).
  destruct (isSelection d) eqn:Hd.
  - eexists. eexists. split.
    { intros k. apply saveSelected_draft_run; eassumption. }
    split; [reflexivity|]. split.
    { unfold grows. cbn.
      split; [eexists; reflexivity|]. split; [reflexivity|].
      split; [reflexivity|]. repeat constructor; cbn; lia. }
    split; [count_events|reflexivity].
  - destruct (beforeHeadlessModify (state w)) as [before|] eqn:Hb.
    + eexists. eexists. split.
      { intros k. rewrite (saveSelected_modified k w a d before)
          by assumption.
        apply onCreateOrUpdateAnnotation_run; try eassumption.
        apply Hbase; reflexivity. }
      split; [reflexivity|]. split; [apply grows_afterCommit|].
      split; [count_events|reflexivity].
    + destruct (modifiedTarget (state w)) as [t|] eqn:Hm.
      * eexists. eexists. split.
        { intros k. rewrite (saveSelected_target_only k w a d t)
            by assumption.
          apply onCreateOrUpdateAnnotation_run;
            rewrite ?Hm; try eassumption.
          apply Hsel; assumption. }
        split; [reflexivity|]. split; [apply grows_afterCommit|].
        split; [count_events|reflexivity].
      * eexists. eexists. split.
        { intros k. rewrite (saveSelected_unchanged k w a d)
            by assumption.
          apply onCancelAnnotation_run. }
        split; [reflexivity|]. split; [apply grows_afterCancel|].
        split; [count_events|].
        by destruct (editorDisabled (state w)).
Qed.

(** X3.  No event is fired twice.  A transition fires at most one
    finalization event (created, updated or cancelled) and at most one
    selection event; only a select event fires two events, the finalization
    of the old selection and the selection event of the new one; every
    other transition fires at most one event in all. *)
Theorem no_event_is_fired_twice isEqual act w :
  wf w ->
  validAction w act ->
  exists w' new,
    run isEqual act w = Some (tt, w') /\
    trace w' = trace w ++ new /\
    firesAtMost (if isSelect act then 2 else 1) new.
Proof.
  intros Hwf Hv. pose proof Hwf as (Hsel & Hbase & Htgt).
  assert (Ht : match modifiedTarget (state w) with
               | Some t => allocatedTarget w t
               | None => True
               end)
    by (destruct (modifiedTarget (state w)) as [t|] eqn:E; auto).
  destruct act; cbn in Hv; cbn [run isSelect].
  - (* keyup *)
    unfold headlessCancel. destruct (which =? 27)%Z.
    + unfold_m. cbn. eexists. eexists. split; [reflexivity|].
      rewrite <- app_assoc. split; [reflexivity|]. count_events.
    + exists w, []. split; [reflexivity|].
      split; [by rewrite app_nil_r|]. count_events.
  - (* select *)
    unfold handleSelect, bind, getState.
    destruct (editorDisabled (state w)).
    + unfold onHeadlessSelect.
      destruct (selectedAnnotation (state w)) as [cur|] eqn:Hs.
      * destruct (saveSelected_fires w Hwf)
          as (w1 & fin & Hrun & Hst & Hg & Hfin & Hnosel);
          [rewrite Hs; eauto|].
        rewrite Hrun.
        destruct (onNormalSelect_fires isEqual evt w1)
          as (w' & new & Hrun' & Htr & _ & Hidle).
        { by eapply wf_cleared. }
        { intros a Ha. eapply grows_allocated; eauto. }
        destruct Hidle as [Hnew Hnofin]; [by rewrite Hst|].
        exists w', (fin ++ new). split; [assumption|].
        destruct Hg as (_ & _ & Htr1 & _).
        split; [by rewrite Htr, Htr1, app_assoc|].
        apply (firesAtMost_app 1 1); auto.
      * rewrite saveSelected_idle by assumption.
        destruct (onNormalSelect_fires isEqual evt w Hwf Hv)
          as (w' & new & Hrun & Htr & Hnew & _).
        by exists w', new.
    + destruct (onNormalSelect_fires isEqual evt w Hwf Hv)
        as (w' & new & Hrun & Htr & Hnew & _).
      by exists w', new.
  - (* updateTarget *)
    destruct Hv as [tv Hv].
    rewrite (handleUpdateTarget_run _ _ _ tv Hv).
    eexists. eexists. split; [reflexivity|]. split; [reflexivity|].
    count_events.
  - (* mouse enter *)
    destruct Hv as [d Hd]. unfold handleMouseEnter.
    rewrite (bind_run _ _ w _ _ (clone_run a w d Hd)).
    eexists. eexists. split; [reflexivity|]. split; [reflexivity|].
    count_events.
  - (* mouse leave *)
    destruct Hv as [d Hd]. unfold handleMouseLeave.
    rewrite (bind_run _ _ w _ _ (clone_run a w d Hd)).
    eexists. eexists. split; [reflexivity|]. split; [reflexivity|].
    count_events.
  - (* the editor creates *)
    destruct Hv as [[d Ha] Hp].
    rewrite (onCreateOrUpdateAnnotation_run _ _ _ _ _ d)
      by (try assumption; destruct previous; auto).
    exists (afterCommit onAnnotationCreated d previous w). eexists.
    split; [by destruct (afterCommit onAnnotationCreated d previous w)|].
    split; [reflexivity|]. count_events.
  - (* the editor updates *)
    destruct Hv as [[d Ha] Hp].
    rewrite (onCreateOrUpdateAnnotation_run _ _ _ _ _ d)
      by (try assumption; destruct previous; auto).
    exists (afterCommit onAnnotationUpdated d previous w). eexists.
    split; [by destruct (afterCommit onAnnotationUpdated d previous w)|].
    split; [reflexivity|]. count_events.
  - (* the editor deletes *)
    unfold onDeleteAnnotation. unfold_m. cbn.
    eexists. eexists. split; [reflexivity|]. cbn. rewrite <- !app_assoc.
    split; [reflexivity|]. count_events.
  - (* the editor cancels *)
    rewrite onCancelAnnotation_run.
    exists (afterCancel a w). eexists.
    split; [by destruct (afterCancel a w)|].
    split; [reflexivity|]. count_events.
  - (* id override *)
    destruct Hv as [d Ha].
    rewrite (overrideAnnotationId_run a forcedId w d Ha).
    destruct (selectedAnnotation (state w));
      (eexists; eexists; split; [reflexivity|]; split; [reflexivity|]);
      count_events.
  - (* addAnnotation *)
    destruct Hv as [d Hd]. unfold addAnnotation.
    rewrite (bind_run _ _ w _ _ (clone_run a w d Hd)).
    eexists. eexists. split; [reflexivity|]. split; [reflexivity|].
    count_events.
  - (* cancelSelected *)
    destruct (selectedAnnotation (state w)) as [cur|] eqn:Hs.
    + rewrite (cancelSelected_run w cur Hs).
      eexists. eexists. split; [reflexivity|]. split; [reflexivity|].
      count_events.
    + rewrite (cancelSelected_idle w Hs).
      exists w, []. split; [reflexivity|].
      split; [by rewrite app_nil_r|]. count_events.
  - (* the disableEditor setter *)
    rewrite set_disableEditor_run.
    eexists. eexists. split; [reflexivity|]. split; [reflexivity|].
    count_events.
  - (* getAnnotations *)
    unfold getAnnotations, bind, log. cbn.
    match goal with
    | |- context [mapM _ _ ?w0] =>
        destruct (mapM_clone_run layerAnnotations w0) as (cs & ds & Hrun);
          [exact Hv|]; rewrite Hrun
    end.
    cbn. eexists. eexists. split; [reflexivity|]. split; [reflexivity|].
    count_events.
  - (* getSelected *)
    unfold getSelected. unfold_m. cbn.
    destruct selected as [a|]; cbn.
    + destruct (Hv a eq_refl) as [d Hd]. rewrite Hd. cbn.
      eexists. eexists. split; [reflexivity|]. split; [reflexivity|].
      count_events.
    + eexists. eexists. split; [reflexivity|]. split; [reflexivity|].
      count_events.
  - (* removeAnnotation *)
    eexists. eexists. split; [reflexivity|]. split; [reflexivity|].
    count_events.
  - (* saveSelected *)
    destruct (selectedAnnotation (state w)) as [cur|] eqn:Hs.
    + destruct (saveSelected_fires w Hwf)
        as (w1 & fin & Hrun & Hst & Hg & Hfin & Hnosel);
        [rewrite Hs; eauto|].
      rewrite Hrun. eexists. exists (fin ++ [PromiseResolved]).
      split; [reflexivity|]. destruct Hg as (_ & _ & Htr1 & _). cbn.
      split; [by rewrite Htr1, app_assoc|].
      apply (firesAtMost_app 1 0); auto. count_events.
    + rewrite saveSelected_idle by assumption.
      eexists. eexists. split; [reflexivity|]. split; [reflexivity|].
      count_events.
  - (* selectAnnotation *)
    unfold selectAnnotation. unfold_m. cbn.
    destruct found as [a|]; cbn.
    + destruct (Hv a eq_refl) as [d Hd]. rewrite Hd. cbn.
      eexists. eexists. split; [reflexivity|]. split; [reflexivity|].
      count_events.
    + eexists. eexists. split; [reflexivity|]. rewrite <- app_assoc.
      split; [reflexivity|]. count_events.
  - (* setAnnotations *)
    unfold setAnnotations.
    destruct (mapM_clone_run l w Hv) as (cs & ds & Hrun).
    rewrite (bind_run _ _ w _ _ Hrun).
    eexists. eexists. split; [reflexivity|]. split; [reflexivity|].
    count_events.
  - (* updateSelected *)
    destruct Hv as [d Ha].
    destruct (selectedAnnotation (state w)) as [cur|] eqn:Hs.
    + destruct saveImmediately.
      * destruct (Hsel cur eq_refl) as [dcur Hc].
        rewrite (updateSelected_now _ _ _ cur dcur) by assumption.
        rewrite (onCreateOrUpdateAnnotation_run _ _ _ _ _ d)
          by (try assumption; destruct (isSelection dcur); auto).
        eexists. eexists. split; [reflexivity|]. cbn.
        rewrite <- app_assoc. split; [reflexivity|]. count_events.
      * rewrite updateSelected_later by (rewrite Hs; eauto).
        eexists. eexists. split; [reflexivity|]. cbn.
        rewrite <- app_assoc. split; [reflexivity|]. count_events.
    + rewrite updateSelected_idle by assumption.
      exists w, []. split; [reflexivity|].
      split; [by rewrite app_nil_r|]. count_events.
Qed.

Lemma no_event_is_fired_twice_witness :
  let w := Scenario.world (Scenario.moved Scenario.a true) in
  let evt := {| annotation := Some Scenario.b; element := Some 8;
                skipEvent := false |} in
  exists w',
    run deepEqual (Select evt) w = Some (tt, w') /\
    List.filter isPublicEvent (trace w')
    = [PropsMethod onAnnotationUpdated 3 (PreviousClone 4);
       OnAnnotationSelected 5].
Proof.
  intros w evt.
  assert (Hwf : wf w).
  { repeat split; intros x H; cbn in H;
      first [discriminate H | injection H as <-; eexists; reflexivity]. }
  destruct (no_event_is_fired_twice deepEqual (Select evt) w Hwf)
    as (w' & new & Hrun & _).
  { intros x H. injection H as <-. eexists; reflexivity. }
  exists w'. split; [exact Hrun|].
  vm_compute in Hrun. injection Hrun as <-. reflexivity.
Defined.

(** *** The promises *)

Lemma updateSelected_resolves x saveImmediately w :
  wf w ->
  allocated w x ->
  is_Some (selectedAnnotation (state w)) ->
  exists w1, forall resolve,
    updateSelected x saveImmediately resolve w = resolve w1.
Proof.
  intros (Hsel & Hbase & Htgt) [d Hx] [cur Hs].
  destruct saveImmediately.
  - destruct (Hsel cur Hs) as [dcur Hc].
    eexists. intros resolve.
    rewrite (updateSelected_now _ _ _ cur dcur) by assumption.
    apply (onCreateOrUpdateAnnotation_run _ _ _ _ _ d Hx).
    + destruct (modifiedTarget (state w)) eqn:E; auto.
    + destruct (isSelection dcur); [exact I|by exists dcur].
  - eexists. intros resolve. apply updateSelected_later. by exists cur.
Qed.

(** X13.  The promises of [saveSelected] and [updateSelected].
    [saveSelected] calls [resolve] exactly once, as the last thing it does:
    when the promise resolves, the state update, the calls to the annotation
    layer and the events are all behind.  So does [updateSelected] whenever
    an annotation is selected. *)
Theorem promises_resolve_once_and_last x saveImmediately w :
  wf w ->
  allocated w x ->
  (exists w1, forall resolve, saveSelected resolve w = resolve w1) /\
  (is_Some (selectedAnnotation (state w)) ->
   exists w1, forall resolve,
     updateSelected x saveImmediately resolve w = resolve w1).
Proof.
  intros Hwf Hx. split.
  - destruct (selectedAnnotation (state w)) as [cur|] eqn:Hs.
    + destruct (saveSelected_finalizes w Hwf) as (w1 & new & Hrun & _);
        [rewrite Hs; eauto|].
      by exists w1.
    + exists w. intros resolve. by apply saveSelected_idle.
  - by apply updateSelected_resolves.
Qed.

Lemma promises_resolve_once_and_last_witness :
  let w := Scenario.world (Scenario.moved Scenario.a true) in
  exists w1,
    (forall resolve, saveSelected resolve w = resolve w1) /\
    run deepEqual ApiSaveSelected w = log PromiseResolved w1 /\
    List.filter isPublicEvent (trace w1)
    = [PropsMethod onAnnotationUpdated 3 (PreviousClone 4)].
Proof.
  intros w.
  assert (Hwf : wf w).
  { repeat split; intros x H; cbn in H;
      first [discriminate H | injection H as <-; eexists; reflexivity]. }
  destruct (promises_resolve_once_and_last Scenario.b false w Hwf
              (ex_intro _ Scenario.B eq_refl))
    as [[w1 Hrun] _].
  exists w1. split; [exact Hrun|]. split; [apply Hrun|].
  specialize (Hrun (ret tt)). vm_compute in Hrun.
  injection Hrun as <-. reflexivity.
Defined.

(** *** First write wins *)

(** X14.  After one or more [updateSelected(x, false)] on a selection that
    had no baseline yet, [beforeHeadlessModify] is the annotation that was
    selected before the first of them, whatever the intermediate values
    (the field is assigned only when it is not already set), and a
    [saveSelected()] that follows gives that original annotation to the
    annotation layer as [previous] and a clone of it to the updated
    handler. *)
Theorem first_write_wins_with_saveSelected
    resolve w original dorig x xs final dfinal :
  selectedAnnotation (state w) = Some original ->
  beforeHeadlessModify (state w) = None ->
  annotations w !! original = Some dorig ->
  last (x :: xs) = Some final ->
  annotations w !! final = Some dfinal ->
  isSelection dfinal = false ->
  match modifiedTarget (state w) with
  | Some t => allocatedTarget w t
  | None => True
  end ->
  exists mid a c w',
    (forall k, updateSelectedEach (x :: xs) k w
               = k (afterUpdates (x :: xs) w)) /\
    selectedAnnotation (state (afterUpdates (x :: xs) w)) = Some final /\
    beforeHeadlessModify (state (afterUpdates (x :: xs) w))
    = Some original /\
    updateSelectedEach (x :: xs) (saveSelected resolve) w = resolve w' /\
    trace w' = trace w ++ mid
               ++ [SetState (cleared (state w)); LayerDeselect;
                   LayerAddOrUpdateAnnotation a (Some original);
                   PropsMethod onAnnotationUpdated a (PreviousClone c)] /\
    forallb isSetState mid = true /\
    state w' = cleared (state w) /\
    annotations w' !! a = Some (committed w dfinal) /\
    annotations w' !! c = Some dorig /\
    length (annotations w) <= c.
Proof.
  intros Hs Hb Ho Hl Hf Hd Ht.
  pose proof (afterUpdates_frame (x :: xs) w)
    as (Han & Htg & Hu & Hm & He & mid & Htr & Hmid).
  assert (Hsel : selectedAnnotation (state (afterUpdates (x :: xs) w))
                 = Some final)
    by (rewrite afterUpdates_selected, Hl; reflexivity).
  assert (Hbase : beforeHeadlessModify (state (afterUpdates (x :: xs) w))
                  = Some original).
  { cbn [afterUpdates fold_left]. apply afterUpdates_keeps_baseline.
    rewrite afterUpdate_records_baseline by assumption. assumption. }
  assert (Hrun : forall k, updateSelectedEach (x :: xs) k w
                           = k (afterUpdates (x :: xs) w))
    by (intros k; apply updateSelectedEach_run; eauto).
  exists mid, (length (annotations w)), (S (length (annotations w))).
  eexists. split; [exact Hrun|]. split; [exact Hsel|]. split; [exact Hbase|].
  split.
  { rewrite Hrun.
    rewrite (saveSelected_modified resolve _ final dfinal original)
      by (rewrite ?Han; assumption).
    rewrite (onCreateOrUpdateAnnotation_run onAnnotationUpdated resolve
               final (Some original) _ dfinal).
    - reflexivity.
    - rewrite Han. assumption.
    - rewrite Hm. unfold allocatedTarget in *. rewrite Htg. assumption.
    - unfold allocated. rewrite Han, Ho. eauto. }
  unfold afterCommit, committedRef, committed, cleared.
  rewrite Hd, Han, Htg, Hu, Hm, He, Htr, Ho. cbn.
  split; [by rewrite <- app_assoc|].
  split; [assumption|]. split; [reflexivity|].
  split; [solve_new|]. split; [solve_new|lia].
Qed.

Lemma first_write_wins_with_saveSelected_witness :
  let w := Scenario.world (Scenario.open Scenario.a true) in
  exists w',
    updateSelectedEach [Scenario.d; Scenario.b] (saveSelected undefined) w
    = Some (tt, w') /\
    List.filter isCreatedOrUpdated (trace w')
    = [PropsMethod onAnnotationUpdated 3 (PreviousClone 4)] /\
    annotations w' !! 3 = Some Scenario.B /\
    annotations w' !! 4 = Some Scenario.A.
Proof.
  intros w.
  destruct (first_write_wins_with_saveSelected undefined w Scenario.a Scenario.A
              Scenario.d [Scenario.b] Scenario.b Scenario.B
              eq_refl eq_refl eq_refl eq_refl eq_refl eq_refl I)
    as (mid & a & c & w' & _ & _ & _ & Hrun & _).
  exists w'. split; [exact Hrun|].
  cbv in Hrun. injection Hrun as <-. repeat split.
Defined.

(** *** Sequences of transitions *)




(** *** Switching the mode with a selection open *)

(** X5.  The [disableEditor] setter with an annotation selected.  The
    selection, a pending target and a recorded baseline stay as they are;
    the getter answers the new value; [render] shows the editor on the
    selection when the flag was switched off and nothing when it was
    switched on.  The setter does one state update and nothing else: its
    callback runs when the flag is updated already, so it compares the new
    value with itself and neither adds nor removes the keyup listener. *)
Theorem disableEditor_switch_keeps_the_selection
    configReadOnly disabled w a d :
  selectedAnnotation (state w) = Some a ->
  annotations w !! a = Some d ->
  exists w',
    set_disableEditor disabled w = Some (tt, w') /\
    get_disableEditor w' = Some (disabled, w') /\
    render configReadOnly w'
    = Some ((if disabled then None
             else Some {| editorAnnotation := a;
                          editorModifiedTarget := modifiedTarget (state w);
                          editorSelectedElement :=
                            selectedDOMElement (state w);
                          editorReadOnly :=
                            configReadOnly || readOnly d |}),
            w') /\
    selectedAnnotation (state w') = Some a /\
    modifiedTarget (state w') = modifiedTarget (state w) /\
    beforeHeadlessModify (state w') = beforeHeadlessModify (state w) /\
    annotations w' = annotations w /\
    targets w' = targets w /\
    trace w' = trace w ++ [SetState (state w')].
Proof.
  intros Hs Ha. eexists. split; [apply set_disableEditor_run|].
  split; [reflexivity|]. split.
  - unfold render. unfold_m. cbn. rewrite Hs. cbn. rewrite Ha.
    by destruct disabled.
  - cbn. repeat split; assumption.
Qed.

Lemma disableEditor_switch_keeps_the_selection_witness :
  let w := Scenario.world (Scenario.moved Scenario.a false) in
  exists w',
    set_disableEditor true w = Some (tt, w') /\
    render false w' = Some (None, w') /\
    selectedAnnotation (state w') = Some Scenario.a /\
    trace w' = trace w ++ [SetState (state w')].
Proof.
  intros w.
  destruct (disableEditor_switch_keeps_the_selection
              false true w Scenario.a Scenario.A eq_refl eq_refl)
    as (w' & Hset & _ & Hr & Hsel & _ & _ & _ & _ & Htr).
  exists w'. repeat split; assumption.
Defined.
